(** * The Challenge 2 DevUI launcher (challenge-2/devui_launcher.py)

    A shallow embedding of the launcher script: the environment validator
    [check_environment], the workflow declared through [WorkflowBuilder],
    the launch function [launch_workflow_devui] with its two handlers, and
    [main] with the command line, the gate and the outer handlers.

    Effects are explicit.  A program is a function from the [World] (the
    command line, the process environment, and what every external call
    does) to the list of [event]s it produces and an [outcome]: a returned
    value or a raised Python exception. *)

From Stdlib Require Import ZArith String Ascii List Lia.
From stdpp Require Import base option list sorting gmap strings pretty.

Open Scope string_scope.
Open Scope Z_scope.

(** ** Python exceptions *)

(** The exception classes the launcher can meet, with the base class of
    each as in Python's hierarchy.  [KeyboardInterrupt], [SystemExit] and
    [GeneratorExit] derive from [BaseException] directly, not from
    [Exception]. *)
Inductive exn_class :=
  | BaseException
  | SystemExit
  | KeyboardInterrupt
  | GeneratorExit
  | Exception
  | ImportError
  | ModuleNotFoundError
  | OSError
  | FileNotFoundError
  | ValueError
  | RuntimeError.

#[global] Instance exn_class_eq_dec : EqDecision exn_class.
Proof. solve_decision. Defined.

Definition base_class (c : exn_class) : option exn_class :=
  match c with
  | BaseException => None
  | SystemExit | KeyboardInterrupt | GeneratorExit | Exception => Some BaseException
  | ImportError | OSError | ValueError | RuntimeError => Some Exception
  | ModuleNotFoundError => Some ImportError
  | FileNotFoundError => Some OSError
  end.

(** [issubclass_upto n c d]: [d] is met within [n] steps up from [c]. *)
Fixpoint issubclass_upto (n : nat) (c d : exn_class) : bool :=
  bool_decide (c = d) ||
  match n with
  | O => false
  | S n' =>
      match base_class c with
      | Some b => issubclass_upto n' b d
      | None => false
      end
  end.

(** The hierarchy above is three levels deep below [BaseException]. *)
Definition issubclass (c d : exn_class) : bool := issubclass_upto 3 c d.

(** An exception value: its class, what [str(e)] gives, and (read for
    [SystemExit] only) its integer exit code, as in [sys.exit(1)]. *)
Record exn := mk_exn {
  exn_cls : exn_class;
  exn_str : string;
  exn_code : Z
}.

Definition isinstance (e : exn) (c : exn_class) : bool :=
  issubclass (exn_cls e) c.

(** ** The workflow builder *)

(** Modelled from the spec: the four executor handles that the launcher
    imports from [sequential_workflow_chal2], a module of this repository
    that is not among the sources; they are four distinct named handles. *)
Inductive Executor :=
  | customer_data_executor
  | risk_analyzer_executor
  | compliance_report_executor
  | fraud_alert_executor.

#[global] Instance Executor_eq_dec : EqDecision Executor.
Proof. solve_decision. Defined.

Definition all_executors : list Executor :=
  [customer_data_executor; risk_analyzer_executor;
   compliance_report_executor; fraud_alert_executor].

Definition Edge : Type := Executor * Executor.

(** Modelled from the spec: the workflow-construction API, which accepts a
    name, a description, a start-node designation and directed edges, and
    returns a graph handle.  The builder records what it is told, in
    order. *)
Record WorkflowBuilder := mk_builder {
  b_name : string;
  b_description : string;
  b_start : option Executor;
  b_edges : list Edge
}.

Record Workflow := mk_workflow {
  wf_name : string;
  wf_description : string;
  wf_start : Executor;
  wf_edges : list Edge
}.

Definition new_WorkflowBuilder (name description : string) : WorkflowBuilder :=
  mk_builder name description None [].

Definition set_start_executor (e : Executor) (b : WorkflowBuilder) : WorkflowBuilder :=
  mk_builder (b_name b) (b_description b) (Some e) (b_edges b).

Definition add_edge (src tgt : Executor) (b : WorkflowBuilder) : WorkflowBuilder :=
  mk_builder (b_name b) (b_description b) (b_start b) (b_edges b ++ [(src, tgt)])%list.

Definition elem_b (x : Executor) (l : list Executor) : bool :=
  bool_decide (x ∈ l).

(** The nodes of a graph: the start node and the end points of the edges,
    each once. *)
Definition nodes_of (start : Executor) (es : list Edge) : list Executor :=
  remove_dups (start :: concat (map (fun e : Edge => [fst e; snd e]) es)).

(** One round of graph search: add the targets of the edges that leave
    the nodes seen so far. *)
Definition reach_step (es : list Edge) (seen : list Executor) : list Executor :=
  remove_dups (seen ++ map snd (filter (fun e : Edge => elem_b (fst e) seen = true) es)).

Fixpoint reach (n : nat) (es : list Edge) (seen : list Executor) : list Executor :=
  match n with
  | O => seen
  | S n' => reach n' es (reach_step es seen)
  end.

Definition reachable_from (start : Executor) (es : list Edge) : list Executor :=
  reach (length es) es [start].

(** Modelled from the spec: the builder rejects a graph with no start node
    and a graph whose start node is not a reachability root (some node is
    not reached from it). *)
Definition validate (b : WorkflowBuilder) : option Workflow :=
  match b_start b with
  | None => None
  | Some s =>
      if forallb (fun x => elem_b x (reachable_from s (b_edges b))) (nodes_of s (b_edges b))
      then Some (mk_workflow (b_name b) (b_description b) s (b_edges b))
      else None
  end.

Definition out_degree (x : Executor) (es : list Edge) : nat :=
  length (filter (fun e : Edge => fst e = x) es).

Definition in_degree (x : Executor) (es : list Edge) : nat :=
  length (filter (fun e : Edge => snd e = x) es).

Definition successors (x : Executor) (es : list Edge) : list Executor :=
  map snd (filter (fun e : Edge => fst e = x) es).

(** The nodes no edge enters. *)
Definition roots (wf : Workflow) : list Executor :=
  filter (fun x => in_degree x (wf_edges wf) = 0%nat) (nodes_of (wf_start wf) (wf_edges wf)).

(** ** The world the launcher runs in *)

(** The command line as [argparse] recognises it: the launcher declares
    the option [--port] with an integer value and the flag
    [--no-env-check]. *)
Inductive cli_arg :=
  | opt_port (n : Z)
  | opt_no_env_check.

(** The places of [launch_workflow_devui] where control leaves the script
    for code it does not own, named after their source lines.  These are
    the calls that can raise; [print] and the reads of [os.environ] always
    return. *)
Inductive site :=
  | L61_import_serve
  | L66_chdir
  | L68_import_executors
  | L74_import_WorkflowBuilder
  | L78_WorkflowBuilder
  | L82_set_start_executor
  | L83_add_edge
  | L84_add_edge
  | L85_add_edge
  | L86_build
  | L100_serve.

#[global] Instance site_eq_dec : EqDecision site.
Proof. solve_decision. Defined.

(** The sites in the order the launcher reaches them. *)
Definition launch_sites : list site :=
  [L61_import_serve; L66_chdir; L68_import_executors; L74_import_WorkflowBuilder;
   L78_WorkflowBuilder; L82_set_start_executor; L83_add_edge; L84_add_edge;
   L85_add_edge; L86_build; L100_serve].

Definition site_index (s : site) : nat :=
  match s with
  | L61_import_serve => 0
  | L66_chdir => 1
  | L68_import_executors => 2
  | L74_import_WorkflowBuilder => 3
  | L78_WorkflowBuilder => 4
  | L82_set_start_executor => 5
  | L83_add_edge => 6
  | L84_add_edge => 7
  | L85_add_edge => 8
  | L86_build => 9
  | L100_serve => 10
  end%nat.

(** The sites inside the [try] block of [launch_workflow_devui]; the
    import of [serve] on line 61 comes before it. *)
Definition in_try (s : site) : bool :=
  negb (bool_decide (s = L61_import_serve)).

(** A [pathlib] path of the host (POSIX): its root, empty for a relative
    path, and its components. *)
Record Path := mk_path {
  path_root : string;
  path_parts : list string
}.

(** [p / name] for a single component [name]. *)
Definition joinpath (p : Path) (name : string) : Path :=
  mk_path (path_root p) (path_parts p ++ [name])%list.

(** [str(p)]: the path with no component is its root, or a dot when it
    has none. *)
Definition str_path (p : Path) : string :=
  match path_parts p with
  | [] => if bool_decide (path_root p = "") then "." else path_root p
  | parts => path_root p ++ String.concat "/" parts
  end.

Record World := mk_world {
  sys_argv : list cli_arg;
  current_dir : Path;                 (* Path(__file__).parent *)
  environ : gmap string string;       (* os.environ *)
  faults : site → option exn          (* what an external call raises, if anything *)
}.

(** What the script does that can be seen from outside, in order.
    [Print text] is one call [print(text)]; the text may span several
    lines of output. *)
Inductive event :=
  | Print (text : string)
  | BasicConfig (level format : string)
  | Getenv (key : string)
  | Chdir (path : string)
  | Enter (s : site)
  | Serve (entities : list Workflow) (port : Z) (auto_open : bool).

Inductive outcome (A : Type) :=
  | Returned (a : A)
  | Raised (e : exn).
Arguments Returned {A} a.
Arguments Raised {A} e.

(** ** The monad of the script: a trace and a result or an exception *)

Definition M (A : Type) : Type := World → list event * outcome A.

#[global] Instance M_ret : MRet M := λ A a _, ([], Returned a).

#[global] Instance M_bind : MBind M := λ A B f m w,
  match m w with
  | (t, Returned a) => let '(t', r) := f a w in ((t ++ t')%list, r)
  | (t, Raised e) => (t, Raised e)
  end.

Definition raise {A} (e : exn) : M A := λ _, ([], Raised e).

Definition emit (ev : event) : M unit := λ _, ([ev], Returned tt).

(** [try: body except c1 as e: h1 e except c2 as e: h2 e ...]: the first
    clause whose class the exception is an instance of handles it; an
    exception raised by a handler, or matched by none, propagates. *)
Definition try_except {A} (body : M A) (handlers : list (exn_class * (exn → M A))) : M A :=
  λ w,
  match body w with
  | (t, Returned a) => (t, Returned a)
  | (t, Raised e) =>
      match find (λ h, isinstance e (fst h)) handlers with
      | Some h => let '(t', r) := snd h e w in ((t ++ t')%list, r)
      | None => (t, Raised e)
      end
  end.

(** [for x in xs: acc = body x acc]. *)
Fixpoint for_in {A S} (xs : list A) (body : A → S → M S) (acc : S) : M S :=
  match xs with
  | [] => mret acc
  | x :: xs' => acc' ← body x acc; for_in xs' body acc'
  end.

Definition print (s : string) : M unit := emit (Print s).

Definition sys_exit {A} (code : Z) : M A :=
  raise (mk_exn SystemExit (pretty code) code).

(** [os.environ.get(var)]: [None] when the variable is unset. *)
Definition os_environ_get (var : string) : M (option string) :=
  λ w, ([Getenv var], Returned (environ w !! var)).

(** An external call at site [s] that yields [a] unless it raises. *)
Definition call {A} (ev : event) (s : site) (a : A) : M A :=
  λ w, ([ev],
        match faults w s with
        | Some e => Raised e
        | None => Returned a
        end).

(** Python truth of [os.environ.get(var)]: [None] and the empty string
    are false. *)
Definition truthy (v : option string) : bool :=
  match v with
  | None => false
  | Some s => negb (bool_decide (s = ""))
  end.

(** [s * n] on strings. *)
Fixpoint str_mul (s : string) (n : nat) : string :=
  match n with
  | O => ""
  | S n' => s ++ str_mul s n'
  end.

Definition nl : string := String (ascii_of_nat 10) "".

(** ** The command line *)

Record Namespace := mk_args {
  args_port : Z;
  args_no_env_check : bool
}.

(** The defaults of the two [add_argument] declarations: [default=8083]
    and [action="store_true"]. *)
Definition default_args : Namespace := mk_args 8083 false.

Definition store_arg (ns : Namespace) (a : cli_arg) : Namespace :=
  match a with
  | opt_port n => mk_args n (args_no_env_check ns)
  | opt_no_env_check => mk_args (args_port ns) true
  end.

Definition parse_args : M Namespace :=
  λ w, ([], Returned (fold_left store_arg (sys_argv w) default_args)).

(** ** The script *)

(** [load_dotenv(override=...)]: every variable the [.env] file gives a
    value is written to the environment; with [override] it replaces a
    value the environment already has, without it the old value stays. *)
Definition load_dotenv (override : bool) (dotenv : gmap string (option string))
    (env : gmap string string) : gmap string string :=
  merge (λ fv ev,
           match fv, ev with
           | Some (Some v), Some old => if override then Some v else Some old
           | Some (Some v), None => Some v
           | _, _ => ev
           end) dotenv env.

Definition setup_logging : M unit :=
  emit (BasicConfig "INFO" "%(asctime)s - %(name)s - %(levelname)s - %(message)s").

Definition required_vars : list string :=
  ["AI_FOUNDRY_PROJECT_ENDPOINT";
   "MODEL_DEPLOYMENT_NAME";
   "COSMOS_ENDPOINT";
   "COSMOS_KEY";
   "MCP_SERVER_ENDPOINT";
   "APIM_SUBSCRIPTION_KEY";
   "FRAUD_ALERT_AGENT_ID"].

Definition check_environment : M bool :=
  missing_vars ← for_in required_vars
      (λ var missing_vars,
         v ← os_environ_get var;
         if negb (truthy v) then mret (missing_vars ++ [var])%list else mret missing_vars)
      [];
  match missing_vars with
  | _ :: _ =>
      print "❌ Missing required environment variables:";;
      for_in missing_vars (λ var _, print ("   - " ++ var)) tt;;
      print (nl ++ "Please set these variables in your .env file.");;
      mret false
  | [] =>
      print "✅ All required environment variables are set";;
      mret true
  end.

(** [agents_dir = current_dir / "agents"] (line 17). *)
Definition agents_dir (w : World) : Path := joinpath (current_dir w) "agents".

(** [os.chdir(agents_dir)]: the call is recorded with the path it is
    given, whether it then raises or not. *)
Definition os_chdir_agents_dir : M unit :=
  λ w, call (Chdir (str_path (agents_dir w))) L66_chdir tt w.

(** [.build()]: the builder's own checks, unless the call raises first. *)
Definition build (b : WorkflowBuilder) : M Workflow :=
  _ ← call (Enter L86_build) L86_build tt;
  match validate b with
  | Some wf => mret wf
  | None => raise (mk_exn ValueError "invalid workflow graph" 0)
  end.

Definition serve (entities : list Workflow) (port : Z) (auto_open : bool) : M unit :=
  call (Serve entities port auto_open) L100_serve tt.

Definition launch_workflow_devui (port : Z) : M unit :=
  call (Enter L61_import_serve) L61_import_serve tt;;
  try_except
    (os_chdir_agents_dir;;
     call (Enter L68_import_executors) L68_import_executors tt;;
     call (Enter L74_import_WorkflowBuilder) L74_import_WorkflowBuilder tt;;
     b ← call (Enter L78_WorkflowBuilder) L78_WorkflowBuilder
           (new_WorkflowBuilder
              "Challenge 2: Fraud Detection Workflow with MCP"
              "4-executor workflow: Customer Data → Risk Analyzer → (Compliance Report + Fraud Alert in parallel)");
     b ← call (Enter L82_set_start_executor) L82_set_start_executor
           (set_start_executor customer_data_executor b);
     b ← call (Enter L83_add_edge) L83_add_edge
           (add_edge customer_data_executor risk_analyzer_executor b);
     b ← call (Enter L84_add_edge) L84_add_edge
           (add_edge risk_analyzer_executor compliance_report_executor b);
     b ← call (Enter L85_add_edge) L85_add_edge
           (add_edge risk_analyzer_executor fraud_alert_executor b);
     workflow ← build b;
     print ("🚀 Launching Challenge 2 DevUI on port " ++ pretty port);;
     print "🔄 Workflow: 4-Agent Fraud Detection with MCP Integration";;
     print "   Architecture: Customer Data → Risk Analyzer → [Compliance Report + Fraud Alert]";;
     print ("🌐 Access at: http://localhost:" ++ pretty port);;
     print (nl ++ "💡 Features:");;
     print "   • Real-time Cosmos DB integration";;
     print "   • Azure AI Foundry agents";;
     print "   • MCP Server integration for fraud alerts";;
     print "   • Parallel executor processing";;
     print "   • Complete audit trail generation";;
     serve [workflow] port true)
    [(ImportError, λ e,
        print ("❌ Error importing workflow: " ++ exn_str e);;
        print (nl ++ "Make sure you're in the correct directory and all dependencies are installed.");;
        sys_exit 1);
     (Exception, λ e,
        print ("❌ Error launching DevUI: " ++ exn_str e);;
        sys_exit 1)].

(** [a and b()]: [b] is called only when [a] is true. *)
Definition and_then (a : bool) (b : M bool) : M bool :=
  if a then b else mret false.

(** [if c: body] with no [else]. *)
Definition when_ (c : bool) (body : M unit) : M unit :=
  if c then body else mret tt.

Definition main : M unit :=
  args ← parse_args;
  setup_logging;;
  print (str_mul "=" 70);;
  print "🏦 Azure Trust Agents - Challenge 2: MCP Integration DevUI";;
  print (str_mul "=" 70);;
  stop ← and_then (negb (args_no_env_check args)) (ok ← check_environment; mret (negb ok));
  when_ stop (sys_exit 1);;
  try_except
    (launch_workflow_devui (args_port args))
    [(KeyboardInterrupt, λ _, print (nl ++ "👋 DevUI stopped by user"));
     (Exception, λ e,
        print ("❌ Error launching DevUI: " ++ exn_str e);;
        sys_exit 1)].

(** The exit status of the process as the operating system reports it:
    0 when the script returns; for a [SystemExit] that reaches the top,
    the low eight bits of its integer code; and 1 (after a traceback)
    for any other exception that does. *)
Definition exit_status (r : outcome unit) : Z :=
  match r with
  | Returned _ => 0
  | Raised e => if isinstance e SystemExit then exn_code e `mod` 256 else 1
  end.

(** Running the script: the module body loads the [.env] file with
    [override=True] (line 23), then [main()] runs (line 167).  [dotenv]
    maps the variables of the file to their values; a variable written
    without a value has [None] and is not exported. *)
Definition run_script (dotenv : gmap string (option string)) (w : World) : list event * Z :=
  let w' := mk_world (sys_argv w) (current_dir w)
              (load_dotenv true dotenv (environ w)) (faults w) in
  let '(t, r) := main w' in (t, exit_status r).

Definition trace_of (p : list event * Z) : list event := fst p.
Definition exit_code (p : list event * Z) : Z := snd p.

(** ** Vocabulary of the statements *)

(** The parsed command line of a world. *)
Definition cli (w : World) : Namespace :=
  fold_left store_arg (sys_argv w) default_args.

Definition with_environ (env : gmap string string) (w : World) : World :=
  mk_world (sys_argv w) (current_dir w) env (faults w).

(** [main()] run to the end of the process, in a world whose environment
    is the one [main] sees. *)
Definition run (w : World) : list event * Z :=
  let '(t, r) := main w in (t, exit_status r).

(** A key is missing when it is unset or set to the empty string. *)
Definition is_missing (env : gmap string string) (k : string) : Prop :=
  env !! k = None ∨ env !! k = Some "".

Definition missing_report (missing_vars : list string) : list event :=
  match missing_vars with
  | [] => [Print "✅ All required environment variables are set"]
  | _ =>
      Print "❌ Missing required environment variables:"
      :: (map (λ var, Print ("   - " ++ var)) missing_vars
          ++ [Print (nl ++ "Please set these variables in your .env file.")])%list
  end.

(** The gate of [main] lets the launch through: the flag is given, or no
    required key is missing. *)
Definition gate_open (w : World) : bool :=
  args_no_env_check (cli w)
  || forallb (λ k, truthy (environ w !! k)) required_vars.

(** The external call at [s] raises [e], and no call before it raises. *)
Definition raises_first (w : World) (s : site) (e : exn) : Prop :=
  faults w s = Some e ∧
  ∀ s', (site_index s' < site_index s)%nat → faults w s' = None.

(** No external call before [serve] raises. *)
Definition reaches_serve (w : World) : Prop :=
  ∀ s, s ≠ L100_serve → faults w s = None.

Definition stop_notice : string := nl ++ "👋 DevUI stopped by user".

(** The body of the loop of [check_environment] (lines 46-47). *)
Definition collect : string → list string → M (list string) :=
  λ var missing_vars,
    v ← os_environ_get var;
    if negb (truthy v) then mret (missing_vars ++ [var])%list else mret missing_vars.

(** The required keys the validator finds missing, in the order of its
    list. *)
Definition missing_vars_of (w : World) : list string :=
  filter (λ k, truthy (environ w !! k) = false) required_vars.

Definition site_of_event (ev : event) : option site :=
  match ev with
  | Enter s => Some s
  | Chdir _ => Some L66_chdir
  | Serve _ _ _ => Some L100_serve
  | _ => None
  end.

(** The events up to and including the call at [s]. *)
Fixpoint upto (s : site) (t : list event) : list event :=
  match t with
  | [] => []
  | ev :: t' =>
      if bool_decide (site_of_event ev = Some s) then [ev] else ev :: upto s t'
  end.

Fixpoint first_fault_in (f : site → option exn) (ss : list site) : option (site * exn) :=
  match ss with
  | [] => None
  | s :: ss' =>
      match f s with
      | Some e => Some (s, e)
      | None => first_fault_in f ss'
      end
  end.

(** The first external call of the launch that raises, with what it
    raises. *)
Definition first_fault (w : World) : option (site * exn) :=
  first_fault_in (faults w) launch_sites.

Definition quiet (w : World) : World :=
  mk_world (sys_argv w) (current_dir w) (environ w) (λ _, None).

(** The events of a launch in which no external call raises. *)
Definition launch_events (port : Z) (w : World) : list event :=
  fst (launch_workflow_devui port (quiet w)).

(** The graph the launcher declares on lines 77-87. *)
Definition challenge2_builder : WorkflowBuilder :=
  add_edge risk_analyzer_executor fraud_alert_executor
    (add_edge risk_analyzer_executor compliance_report_executor
       (add_edge customer_data_executor risk_analyzer_executor
          (set_start_executor customer_data_executor
             (new_WorkflowBuilder
                "Challenge 2: Fraud Detection Workflow with MCP"
                "4-executor workflow: Customer Data → Risk Analyzer → (Compliance Report + Fraud Alert in parallel)")))).

Definition challenge2_workflow : Workflow :=
  mk_workflow
    "Challenge 2: Fraud Detection Workflow with MCP"
    "4-executor workflow: Customer Data → Risk Analyzer → (Compliance Report + Fraud Alert in parallel)"
    customer_data_executor
    [(customer_data_executor, risk_analyzer_executor);
     (risk_analyzer_executor, compliance_report_executor);
     (risk_analyzer_executor, fraud_alert_executor)].

(** What [main] prints before the gate (lines 147-151). *)
Definition banner_events : list event :=
  [BasicConfig "INFO" "%(asctime)s - %(name)s - %(levelname)s - %(message)s";
   Print (str_mul "=" 70);
   Print "🏦 Azure Trust Agents - Challenge 2: MCP Integration DevUI";
   Print (str_mul "=" 70)].

(** The events of the gate on line 154: nothing under [--no-env-check],
    the events of the validator otherwise. *)
Definition gate_events (w : World) : list event :=
  if args_no_env_check (cli w) then []
  else (map Getenv required_vars ++ missing_report (missing_vars_of w))%list.


(** The keys read from the environment, and the ports [serve] is called
    with, in a trace. *)
Definition env_reads (t : list event) : list string :=
  omap (λ ev, match ev with Getenv k => Some k | _ => None end) t.

Definition served_ports (t : list event) : list Z :=
  omap (λ ev, match ev with Serve _ p _ => Some p | _ => None end) t.

(** The startup states of the launcher. *)
Inductive state :=
  | NotStarted
  | EnvChecked
  | GraphBuilt
  | Serving
  | Stopped
  | Failed.

Definition rank (st : state) : nat :=
  match st with
  | NotStarted => 0
  | EnvChecked => 1
  | GraphBuilt => 2
  | Serving => 3
  | Stopped | Failed => 4
  end.

(** The state an event belongs to: a read of the environment is the
    validator at work, a call of the launch before [serve] is the graph
    being built, the call of [serve] is serving.  Output and logging
    set-up belong to no state. *)
Definition state_of_event (ev : event) : option state :=
  match ev with
  | Getenv _ => Some EnvChecked
  | Chdir _ => Some GraphBuilt
  | Enter s => Some (if bool_decide (s = L100_serve) then Serving else GraphBuilt)
  | Serve _ _ _ => Some Serving
  | Print _ | BasicConfig _ _ => None
  end.

Definition final_state (code : Z) : state :=
  if bool_decide (code = 0) then Stopped else Failed.

(** The states a run goes through, from start to exit. *)
Definition path (p : list event * Z) : list state :=
  (NotStarted :: omap state_of_event (trace_of p) ++ [final_state (exit_code p)])%list.

(** Worlds of the examples: every required key set, no call raises. *)
Definition full_environ : gmap string string :=
  list_to_map (map (λ k, (k, "set")) required_vars).

Definition calm : site → option exn := λ _, None.

Definition raising (s : site) (e : exn) : site → option exn :=
  λ s', if bool_decide (s' = s) then Some e else None.

Definition interrupt : exn := mk_exn KeyboardInterrupt "" 0.

Definition module_not_found : exn :=
  mk_exn ModuleNotFoundError "No module named 'sequential_workflow_chal2'" 0.

Definition address_in_use : exn :=
  mk_exn OSError "[Errno 98] Address already in use" 0.

Definition example_world (argv : list cli_arg) (env : gmap string string)
    (f : site → option exn) : World :=
  mk_world argv (mk_path "/" ["srv"; "challenge-2"]) env f.

(** The arguments of the calls of [print] in a trace, one for each call. *)
Definition printed (t : list event) : list string :=
  omap (λ ev, match ev with Print s => Some s | _ => None end) t.

(** [os.environ] after [os.environ[k] = v] ([v] a string) or
    [del os.environ[k]] ([v] absent). *)
Definition set_var (k : string) (v : option string) (w : World) : World :=
  with_environ (partial_alter (λ _, v) k (environ w)) w.

(** The paths [os.chdir] is called with, one for each call, whether or
    not the call raises. *)
Definition chdir_calls (t : list event) : list string :=
  omap (λ ev, match ev with Chdir path => Some path | _ => None end) t.

(** The three calls of [print] that report an error of the launch (lines
    103, 107 and 163) are the calls whose argument starts with the cross
    mark and the word Error; no other call of [print] in the script has
    such an argument. *)
Definition is_error_report (s : string) : bool := String.prefix "❌ Error" s.

(** The arguments of the error-report calls of [print] in a trace, one
    for each call. *)
Definition error_reports (t : list event) : list string :=
  filter (λ s, is_error_report s = true) (printed t).

(** * Properties *)

(** ** The environment validator *)

Section Validator.

Variable w : World.

(** The loop of lines 45-47 reads every variable of its list and keeps,
    in order, those whose value is false in Python's sense. *)
Lemma collect_loop (vars acc : list string) :
  for_in vars collect acc w =
    (map Getenv vars,
     Returned (acc ++ filter (λ k, truthy (environ w !! k) = false) vars)%list).
Proof using Type.
  revert acc. induction vars as [|var vars IH]; intros acc.
  - cbn. by rewrite app_nil_r.
  - cbn [for_in]. unfold mbind, M_bind at 1. unfold collect at 1.
    unfold mbind, M_bind at 1. unfold os_environ_get at 1.
    rewrite filter_cons.
    destruct (truthy (environ w !! var)) eqn:Hv; cbn [negb mret M_ret app].
    + rewrite IH. destruct (decide _) as [Hd|Hd]; [congruence|]. reflexivity.
    + rewrite IH. destruct (decide _) as [Hd|Hd]; [|congruence].
      cbn. by rewrite <- app_assoc.
Qed.

Lemma report_loop (vars : list string) :
  for_in vars (λ var _, print ("   - " ++ var)) tt w =
    (map (λ var, Print ("   - " ++ var)) vars, Returned tt).
Proof using Type.
  induction vars as [|var vars IH]; [done|].
  cbn [for_in]. unfold mbind, M_bind at 1. cbn [print emit].
  by rewrite IH.
Qed.

Lemma check_environment_run :
  check_environment w =
    ((map Getenv required_vars ++ missing_report (missing_vars_of w))%list,
     Returned (bool_decide (missing_vars_of w = []))).
Proof using Type.
  unfold check_environment. unfold mbind at 1. unfold M_bind at 1.
  change (for_in required_vars _ [] w) with (for_in required_vars collect [] w).
  rewrite collect_loop. cbn [app].
  fold (missing_vars_of w). destruct (missing_vars_of w) as [|m ms] eqn:Hm.
  - reflexivity.
  - unfold mbind, M_bind. cbn [print emit]. rewrite report_loop. reflexivity.
Qed.

Lemma truthy_false (v : option string) :
  truthy v = false ↔ v = None ∨ v = Some "".
Proof using Type.
  destruct v as [s|]; cbn.
  - rewrite negb_false_iff, bool_decide_eq_true.
    split; [intros ->; by right | intros [?|[= ->]]; done].
  - split; [by left | done].
Qed.

Lemma elem_of_missing_vars_of (k : string) :
  k ∈ (missing_vars_of w) ↔ k ∈ required_vars ∧ is_missing (environ w) k.
Proof using Type.
  unfold missing_vars_of, is_missing.
  rewrite list_elem_of_filter, truthy_false. tauto.
Qed.

Lemma required_vars_NoDup : NoDup required_vars.
Proof using Type. apply (bool_decide_unpack _). by vm_compute. Qed.

Lemma missing_vars_of_nil :
  (missing_vars_of w) = [] ↔
  ∀ k, k ∈ required_vars → ∃ v, environ w !! k = Some v ∧ v ≠ "".
Proof using Type.
  split.
  - intros Hnil k Hk.
    destruct (environ w !! k) as [v|] eqn:Hv.
    + exists v. split; [done|]. intros ->.
      assert (k ∈ (missing_vars_of w)) as Hin
        by (apply elem_of_missing_vars_of; split; [done|by right]).
      rewrite Hnil in Hin. by apply not_elem_of_nil in Hin.
    + assert (k ∈ (missing_vars_of w)) as Hin
        by (apply elem_of_missing_vars_of; split; [done|by left]).
      rewrite Hnil in Hin. by apply not_elem_of_nil in Hin.
  - intros Hall. destruct (missing_vars_of w) as [|k ks] eqn:Hm; [done|].
    assert (k ∈ (missing_vars_of w)) as Hin by (rewrite Hm; left).
    apply elem_of_missing_vars_of in Hin as [Hreq Hmiss].
    destruct (Hall k Hreq) as (v & Hv & Hne).
    destruct Hmiss as [Hn|Hs]; congruence.
Qed.

End Validator.

(** ** The launch function, one external call at a time *)

Lemma validate_challenge2 : validate challenge2_builder = Some challenge2_workflow.
Proof. by vm_compute. Qed.

(** Case analysis on what the call at [s] does; when it raises, the run is
    over and both handlers are tried. *)
Ltac step_site s :=
  match goal with
  | |- context [faults ?w s] =>
      let e := fresh "e" in
      destruct (faults w s) as [e|];
      [ cbn -[isinstance validate pretty];
        destruct (isinstance e ImportError), (isinstance e Exception);
        reflexivity
      | ]
  end.

Lemma launch_run (port : Z) (w : World) :
  launch_workflow_devui port w =
    match first_fault w with
    | None => (launch_events port w, Returned tt)
    | Some (s, e) =>
        let t := upto s (launch_events port w) in
        if in_try s && isinstance e ImportError then
          ((t ++ [Print ("❌ Error importing workflow: " ++ exn_str e);
                  Print (nl ++ "Make sure you're in the correct directory and all dependencies are installed.")])%list,
           Raised (mk_exn SystemExit "1" 1))
        else if in_try s && isinstance e Exception then
          ((t ++ [Print ("❌ Error launching DevUI: " ++ exn_str e)])%list,
           Raised (mk_exn SystemExit "1" 1))
        else (t, Raised e)
    end.
Proof.
  unfold first_fault, launch_events, launch_workflow_devui, build.
  unfold try_except, mbind, M_bind, call, os_chdir_agents_dir, call, serve,
    print, emit, sys_exit, raise.
  cbn -[isinstance validate pretty].
  step_site L61_import_serve; step_site L66_chdir; step_site L68_import_executors;
  step_site L74_import_WorkflowBuilder; step_site L78_WorkflowBuilder;
  step_site L82_set_start_executor; step_site L83_add_edge; step_site L84_add_edge;
  step_site L85_add_edge; step_site L86_build.
  repeat match goal with
         | |- context [validate ?b] =>
             progress change (validate b) with (Some challenge2_workflow)
         end.
  destruct (faults w L100_serve) as [e|];
    [cbn -[isinstance pretty]; destruct (isinstance e ImportError), (isinstance e Exception)|];
    reflexivity.
Qed.

Lemma launch_events_eq (port : Z) (w : World) :
  launch_events port w =
    ([Enter L61_import_serve; Chdir (str_path (agents_dir w)); Enter L68_import_executors;
      Enter L74_import_WorkflowBuilder; Enter L78_WorkflowBuilder;
      Enter L82_set_start_executor; Enter L83_add_edge; Enter L84_add_edge;
      Enter L85_add_edge; Enter L86_build]
     ++ filter (λ ev, site_of_event ev = None) (launch_events port w)
     ++ [Serve [challenge2_workflow] port true])%list.
Proof. reflexivity. Qed.

(** ** [main], given what the launch does *)

Lemma no_missing_forallb (f : string → bool) (l : list string) :
  bool_decide (filter (λ k, f k = false) l = []) = forallb f l.
Proof.
  induction l as [|k l IH]; [done|].
  rewrite filter_cons. cbn [forallb].
  destruct (f k) eqn:Hk; destruct (decide _) as [Hd|Hd]; try congruence.
  - by rewrite IH.
  - by rewrite bool_decide_eq_false_2.
Qed.

Lemma gate_open_eq (w : World) :
  gate_open w = args_no_env_check (cli w) || bool_decide (missing_vars_of w = []).
Proof. unfold gate_open, missing_vars_of. by rewrite no_missing_forallb. Qed.

Lemma main_run (w : World) :
  main w =
    let pre := (banner_events ++ gate_events w)%list in
    if gate_open w then
      match launch_workflow_devui (args_port (cli w)) w with
      | (t, Returned _) => ((pre ++ t)%list, Returned tt)
      | (t, Raised e) =>
          if isinstance e KeyboardInterrupt then
            ((pre ++ t ++ [Print stop_notice])%list, Returned tt)
          else if isinstance e Exception then
            ((pre ++ t ++ [Print ("❌ Error launching DevUI: " ++ exn_str e)])%list,
             Raised (mk_exn SystemExit "1" 1))
          else ((pre ++ t)%list, Raised e)
      end
    else (pre, Raised (mk_exn SystemExit "1" 1)).
Proof.
  rewrite gate_open_eq. unfold main, gate_events.
  unfold mbind at 1. unfold M_bind at 1. unfold parse_args at 1. fold (cli w).
  cbn [app].
  unfold mbind at 1. unfold M_bind at 1. unfold setup_logging at 1. cbn [emit].
  unfold mbind at 1. unfold M_bind at 1. cbn [print emit].
  unfold mbind at 1. unfold M_bind at 1. cbn [print emit].
  unfold mbind at 1. unfold M_bind at 1. cbn [print emit].
  unfold mbind at 1. unfold M_bind at 1. unfold and_then.
  destruct (args_no_env_check (cli w)); cbn [negb orb].
  - cbn [mret M_ret when_]. unfold mbind at 1. unfold M_bind at 1.
    cbn [mret M_ret when_ app]. unfold try_except.
    destruct (launch_workflow_devui (args_port (cli w)) w) as [t [[]|e]];
      [reflexivity|].
    cbn [find fst snd].
    destruct (isinstance e KeyboardInterrupt); [reflexivity|].
    destruct (isinstance e Exception); [|reflexivity].
    cbn. unfold mbind, M_bind. cbn. reflexivity.
  - unfold mbind at 1. unfold M_bind at 1. rewrite check_environment_run.
    cbn [mret M_ret].
    destruct (bool_decide (missing_vars_of w = [])); cbn [negb when_].
    + unfold mbind at 1. unfold M_bind at 1.
      cbn [mret M_ret app]. unfold try_except.
      destruct (launch_workflow_devui (args_port (cli w)) w) as [t [[]|e]].
      * cbn. by rewrite ?app_nil_r, <- ?app_assoc.
      * cbn [find fst snd].
        destruct (isinstance e KeyboardInterrupt);
          [cbn; by rewrite ?app_nil_r, <- ?app_assoc|].
        destruct (isinstance e Exception);
          cbn; unfold mbind, M_bind; cbn; by rewrite ?app_nil_r, <- ?app_assoc.
    + unfold mbind at 1. unfold M_bind at 1. cbn.
      by rewrite ?app_nil_r.
Qed.

(** ** Runs of the whole script *)

Lemma raises_first_first_fault (w : World) (s : site) (e : exn) :
  raises_first w s e → first_fault w = Some (s, e).
Proof.
  intros [Hs Hbefore]. unfold first_fault.
  destruct s; cbn;
    repeat match goal with
           | |- context [faults w ?s'] =>
               first [ rewrite Hs | rewrite (Hbefore s') by (cbn; lia) ]
           end; reflexivity.
Qed.

Lemma reaches_serve_first_fault (w : World) :
  reaches_serve w →
  first_fault w = (λ e, (L100_serve, e)) <$> faults w L100_serve.
Proof.
  intros H. unfold first_fault. cbn.
  rewrite !H by discriminate. by destruct (faults w L100_serve).
Qed.

Lemma missing_report_elem (ms : list string) (k : string) :
  k ∈ ms → Print ("   - " ++ k) ∈ missing_report ms.
Proof.
  intros Hk. destruct ms as [|m ms]; [by apply not_elem_of_nil in Hk|].
  unfold missing_report. apply list_elem_of_further, elem_of_app. left.
  by apply (list_elem_of_fmap_2 (λ var, Print ("   - " ++ var))).
Qed.

Lemma isinstance_KeyboardInterrupt (e : exn) :
  exn_cls e = KeyboardInterrupt →
  isinstance e KeyboardInterrupt = true ∧
  isinstance e Exception = false ∧
  isinstance e ImportError = false.
Proof. destruct e as [c msg code]. cbn. by intros ->. Qed.

Lemma isinstance_Exception_not_interrupt (e : exn) :
  isinstance e Exception = true → isinstance e KeyboardInterrupt = false.
Proof. destruct e as [[] msg code]; by cbn. Qed.

Lemma isinstance_ImportError_Exception (e : exn) :
  isinstance e ImportError = true → isinstance e Exception = true.
Proof. destruct e as [[] msg code]; by cbn. Qed.

Ltac finish_run :=
  cbn -[app banner_events gate_events launch_events upto];
  rewrite <- ?app_assoc; reflexivity.

(** The gate is shut: the script stops after the validator's report. *)
Lemma run_gate_shut (w : World) :
  gate_open w = false → run w = ((banner_events ++ gate_events w)%list, 1).
Proof. intros Hg. unfold run. by rewrite main_run, Hg. Qed.

(** The gate is open and no call raises: [serve] returns and so does
    [main]. *)
Lemma run_calm (w : World) :
  gate_open w = true → first_fault w = None →
  run w = ((banner_events ++ gate_events w
            ++ launch_events (args_port (cli w)) w)%list, 0).
Proof.
  intros Hg Hf. unfold run. rewrite main_run, Hg, launch_run, Hf.
  finish_run.
Qed.

(** The gate is open and the call at [s] is the first to raise. *)
Lemma run_raising (w : World) (s : site) (e : exn) :
  gate_open w = true → first_fault w = Some (s, e) →
  run w =
    let pre := (banner_events ++ gate_events w
                ++ upto s (launch_events (args_port (cli w)) w))%list in
    if in_try s && isinstance e ImportError then
      ((pre ++ [Print ("❌ Error importing workflow: " ++ exn_str e);
                Print (nl ++ "Make sure you're in the correct directory and all dependencies are installed.")])%list,
       1)
    else if in_try s && isinstance e Exception then
      ((pre ++ [Print ("❌ Error launching DevUI: " ++ exn_str e)])%list, 1)
    else if isinstance e KeyboardInterrupt then
      ((pre ++ [Print stop_notice])%list, 0)
    else if isinstance e Exception then
      ((pre ++ [Print ("❌ Error launching DevUI: " ++ exn_str e)])%list, 1)
    else (pre, exit_status (Raised e)).
Proof.
  intros Hg Hf. unfold run. rewrite main_run, Hg, launch_run, Hf.
  cbn zeta.
  destruct (in_try s && isinstance e ImportError);
    [finish_run|].
  destruct (in_try s && isinstance e Exception);
    [finish_run|].
  destruct (isinstance e KeyboardInterrupt);
    [finish_run|].
  destruct (isinstance e Exception); finish_run.
Qed.

(** C1. Environment validator: [check_environment] always returns; it
    returns [True] exactly when each of the seven required keys has a
    non-empty value, and [False] otherwise.  It reads all seven keys
    whatever it finds, and its report lists, one line a key and in the
    order of the list, exactly the required keys that are missing (unset
    or empty), each once. *)
Theorem check_environment_exact (w : World) :
  ∃ reported : list string,
    fst (check_environment w)
      = (map Getenv required_vars ++ missing_report reported)%list ∧
    length required_vars = 7%nat ∧
    NoDup reported ∧
    (∀ k, k ∈ reported ↔ k ∈ required_vars ∧ is_missing (environ w) k) ∧
    (snd (check_environment w) = Returned true ↔
       ∀ k, k ∈ required_vars → ∃ v, environ w !! k = Some v ∧ v ≠ "") ∧
    (snd (check_environment w) = Returned false ↔ reported ≠ []) ∧
    (snd (check_environment w) = Returned true ↔ reported = []).
Proof.
  exists (missing_vars_of w). rewrite check_environment_run. cbn [fst snd].
  split; [reflexivity|]. split; [reflexivity|].
  split; [apply NoDup_filter, required_vars_NoDup|].
  split; [apply elem_of_missing_vars_of|].
  assert (Returned (bool_decide (missing_vars_of w = [])) = Returned true
          ↔ missing_vars_of w = []) as Htrue.
  { split.
    - intros [= Hb]. by apply bool_decide_eq_true in Hb.
    - intros Hnil. by rewrite bool_decide_eq_true_2. }
  split; [by rewrite Htrue, missing_vars_of_nil|].
  split; [|exact Htrue].
  split.
  - intros [= Hb]. by apply bool_decide_eq_false in Hb.
  - intros Hne. by rewrite bool_decide_eq_false_2.
Qed.

Lemma truthy_empty_unset (env : gmap string string) (k k' : string) :
  truthy (<[k:=""]> env !! k') = truthy (delete k env !! k').
Proof.
  destruct (decide (k = k')) as [->|Hne].
  - by rewrite lookup_insert_eq, lookup_delete_eq.
  - by rewrite lookup_insert_ne, lookup_delete_ne.
Qed.

Lemma missing_vars_of_empty_unset (w : World) (k : string) :
  missing_vars_of (with_environ (<[k:=""]> (environ w)) w)
  = missing_vars_of (with_environ (delete k (environ w)) w).
Proof.
  unfold missing_vars_of, with_environ. cbn [environ].
  apply list_filter_iff. intros k'. by rewrite truthy_empty_unset.
Qed.

(** C6. Empty string and unset: for a required key [k], the validator run
    with [k] set to the empty string does exactly what it does with [k]
    unset (same reads, same report, same result); in both cases it
    returns [False] and its report has the line of [k]. *)
Theorem empty_string_same_as_unset (w : World) (k : string) :
  k ∈ required_vars →
  let w_empty := with_environ (<[k:=""]> (environ w)) w in
  let w_unset := with_environ (delete k (environ w)) w in
  check_environment w_empty = check_environment w_unset ∧
  snd (check_environment w_empty) = Returned false ∧
  snd (check_environment w_unset) = Returned false ∧
  Print ("   - " ++ k) ∈ fst (check_environment w_empty) ∧
  Print ("   - " ++ k) ∈ fst (check_environment w_unset).
Proof.
  intros Hk w_empty w_unset.
  assert (k ∈ missing_vars_of w_unset) as Hin.
  { apply elem_of_missing_vars_of. split; [done|]. left.
    unfold w_unset, with_environ. cbn [environ]. apply lookup_delete_eq. }
  assert (missing_vars_of w_empty = missing_vars_of w_unset) as Heq
    by apply missing_vars_of_empty_unset.
  rewrite !check_environment_run, Heq. cbn [fst snd].
  assert (missing_vars_of w_unset ≠ []) as Hne
    by (intros Hnil; rewrite Hnil in Hin; by apply not_elem_of_nil in Hin).
  rewrite bool_decide_eq_false_2 by done.
  repeat split; apply elem_of_app; right; by apply missing_report_elem.
Qed.

(** ** Exceptions during the launch *)

Lemma upto_serve (port : Z) (w : World) :
  upto L100_serve (launch_events port w) = launch_events port w.
Proof. reflexivity. Qed.

Lemma serve_in_launch_events (port : Z) (w : World) :
  Serve [challenge2_workflow] port true ∈ launch_events port w.
Proof.
  rewrite launch_events_eq, !elem_of_app. right. right. apply list_elem_of_here.
Qed.

(** A world of the examples in which the call at [s] raises [e] is one in
    which that call is the first to raise. *)
Lemma raising_raises_first argv env (s : site) (e : exn) :
  raises_first (example_world argv env (raising s e)) s e.
Proof.
  split.
  - cbn. unfold raising. by rewrite bool_decide_eq_true_2.
  - intros s' Hlt. cbn. unfold raising.
    rewrite bool_decide_eq_false_2; [done|]. intros ->. lia.
Defined.

(** C3. A keyboard interrupt raised by [serve] ends the process with exit
    code 0, the stop notice being the last thing printed; an import error
    raised inside the [try] block of the launch ends it with exit code 1,
    the last two lines printed being the diagnostic with the text of the
    error and the advice that follows it. *)
Theorem interrupt_and_import_failure (w1 w2 : World) (e1 e2 : exn) (s : site) :
  gate_open w1 = true →
  raises_first w1 L100_serve e1 →
  exn_cls e1 = KeyboardInterrupt →
  gate_open w2 = true →
  raises_first w2 s e2 →
  in_try s = true →
  isinstance e2 ImportError = true →
  (exit_code (run w1) = 0 ∧
   last (trace_of (run w1)) = Some (Print stop_notice) ∧
   Serve [challenge2_workflow] (args_port (cli w1)) true ∈ trace_of (run w1)) ∧
  (exit_code (run w2) = 1 ∧
   ∃ t, trace_of (run w2) =
     (t ++ [Print ("❌ Error importing workflow: " ++ exn_str e2);
            Print (nl ++ "Make sure you're in the correct directory and all dependencies are installed.")])%list).
Proof.
  intros Hg1 Hf1 Hc1 Hg2 Hf2 Htry Himp.
  apply raises_first_first_fault in Hf1, Hf2.
  destruct (isinstance_KeyboardInterrupt e1 Hc1) as (Hki & Hex & Hie).
  rewrite (run_raising w1 _ _ Hg1 Hf1), (run_raising w2 _ _ Hg2 Hf2).
  cbn zeta. rewrite Hki, Hex, Hie, Htry, Himp, upto_serve, !andb_false_r.
  cbn [andb exit_code trace_of fst snd].
  split; [split; [done|split]|split; [done|]].
  - by rewrite !app_assoc, last_snoc.
  - rewrite !elem_of_app. left. right. right. apply serve_in_launch_events.
  - eexists. reflexivity.
Qed.

Lemma interrupt_and_import_failure_witness :
  let w1 := example_world [] full_environ (raising L100_serve interrupt) in
  let w2 := example_world [] full_environ (raising L68_import_executors module_not_found) in
  (exit_code (run w1) = 0 ∧
   last (trace_of (run w1)) = Some (Print stop_notice) ∧
   Serve [challenge2_workflow] (args_port (cli w1)) true ∈ trace_of (run w1)) ∧
  (exit_code (run w2) = 1 ∧
   ∃ t, trace_of (run w2) =
     (t ++ [Print ("❌ Error importing workflow: " ++ exn_str module_not_found);
            Print (nl ++ "Make sure you're in the correct directory and all dependencies are installed.")])%list).
Proof.
  intros w1 w2.
  apply (interrupt_and_import_failure w1 w2 interrupt module_not_found
           L68_import_executors).
  - vm_compute. reflexivity.
  - apply raising_raises_first.
  - reflexivity.
  - vm_compute. reflexivity.
  - apply raising_raises_first.
  - reflexivity.
  - reflexivity.
Defined.




(** C10. A keyboard interrupt raised by any external call of
    [launch_workflow_devui] (the import of [serve], the change of
    directory, the executor and builder imports, the builder calls,
    [serve]) leaves the function as it was raised, neither handler of the
    function printing anything; [main] catches it, prints the stop notice
    last, and the process ends with exit code 0. *)
Theorem interrupt_anywhere_in_launch (w : World) (s : site) (e : exn) :
  gate_open w = true →
  raises_first w s e →
  exn_cls e = KeyboardInterrupt →
  isinstance e Exception = false ∧
  launch_workflow_devui (args_port (cli w)) w
    = (upto s (launch_events (args_port (cli w)) w), Raised e) ∧
  trace_of (run w)
    = (banner_events ++ gate_events w
       ++ upto s (launch_events (args_port (cli w)) w)
       ++ [Print stop_notice])%list ∧
  last (trace_of (run w)) = Some (Print stop_notice) ∧
  exit_code (run w) = 0.
Proof.
  intros Hg Hf Hc.
  apply raises_first_first_fault in Hf.
  destruct (isinstance_KeyboardInterrupt e Hc) as (Hki & Hex & Hie).
  rewrite (run_raising w _ _ Hg Hf), launch_run, Hf. cbn zeta.
  rewrite Hki, Hex, Hie, !andb_false_r.
  cbn [exit_code trace_of fst snd].
  split; [done|]. split; [done|]. split; [by rewrite <- !app_assoc|].
  split; [|done]. by rewrite !app_assoc, last_snoc.
Qed.

Lemma interrupt_anywhere_in_launch_witness :
  let w := example_world [opt_port 9000] full_environ (raising L84_add_edge interrupt) in
  isinstance interrupt Exception = false ∧
  launch_workflow_devui (args_port (cli w)) w
    = (upto L84_add_edge (launch_events (args_port (cli w)) w), Raised interrupt) ∧
  trace_of (run w)
    = (banner_events ++ gate_events w
       ++ upto L84_add_edge (launch_events (args_port (cli w)) w)
       ++ [Print stop_notice])%list ∧
  last (trace_of (run w)) = Some (Print stop_notice) ∧
  exit_code (run w) = 0.
Proof.
  intros w.
  apply (interrupt_anywhere_in_launch w L84_add_edge interrupt).
  - vm_compute. reflexivity.
  - apply raising_raises_first.
  - reflexivity.
Defined.

(** ** The declared graph and the call of [serve] *)

Lemma launch_environ_irrelevant (port : Z) (env : gmap string string) (w : World) :
  launch_workflow_devui port (with_environ env w) = launch_workflow_devui port w.
Proof. rewrite !launch_run. reflexivity. Qed.

Lemma omap_missing_report {B} (f : event → option B) (ms : list string) :
  (∀ s, f (Print s) = None) → omap f (missing_report ms) = [].
Proof.
  intros Hf. destruct ms as [|m ms]; cbn; rewrite ?Hf; [done|].
  rewrite omap_app. cbn. rewrite Hf, app_nil_r.
  induction ms as [|m' ms IH]; cbn; by rewrite ?Hf.
Qed.

Lemma served_ports_gate_events (w : World) : served_ports (gate_events w) = [].
Proof.
  unfold gate_events, served_ports. destruct (args_no_env_check (cli w)); [done|].
  rewrite omap_app, omap_missing_report by done. reflexivity.
Qed.

(** The run of a world in which the gate is open and no call before
    [serve] raises: whatever [serve] does, the trace starts with the
    banner, the gate and the whole launch. *)
Lemma run_reaches_serve (w : World) :
  gate_open w = true → reaches_serve w →
  ∃ extra,
    trace_of (run w) =
      (banner_events ++ gate_events w
       ++ launch_events (args_port (cli w)) w ++ extra)%list ∧
    (extra = [] ∨ (∃ s, extra = [Print s]) ∨ ∃ s s', extra = [Print s; Print s']) ∧
    (faults w L100_serve = None → exit_code (run w) = 0).
Proof.
  intros Hg Hr. pose proof (reaches_serve_first_fault w Hr) as Hf.
  destruct (faults w L100_serve) as [e|]; cbn in Hf.
  - rewrite (run_raising w _ _ Hg Hf). cbn zeta. rewrite upto_serve.
    destruct (in_try L100_serve && isinstance e ImportError);
      [|destruct (in_try L100_serve && isinstance e Exception);
        [|destruct (isinstance e KeyboardInterrupt);
          [|destruct (isinstance e Exception)]]];
      cbn [trace_of exit_code fst snd]; rewrite <- ?app_assoc;
      eexists; (split; [reflexivity|]); (split; [|done]);
      first [ by left | right; left; by eexists | right; right; by do 2 eexists ].
  - rewrite (run_calm w Hg Hf). exists []. cbn [trace_of exit_code fst snd].
    rewrite app_nil_r. split; [done|]. split; [by left|done].
Qed.

(** C2. The graph the launcher hands to [serve]: when no call before
    [serve] raises, [serve] is called once, with a single workflow whose
    start node is [customer_data_executor], which is also its only node
    without an incoming edge; its edges are exactly the three declared
    ones, and [risk_analyzer_executor] has out-degree 2, its successors
    being [compliance_report_executor] and [fraud_alert_executor]. *)
Theorem workflow_graph_topology (w : World) (port : Z) :
  reaches_serve w →
  ∃ wf : Workflow,
    filter (λ ev, site_of_event ev = Some L100_serve)
           (fst (launch_workflow_devui port w)) = [Serve [wf] port true] ∧
    wf_start wf = customer_data_executor ∧
    roots wf = [customer_data_executor] ∧
    wf_edges wf = [(customer_data_executor, risk_analyzer_executor);
                   (risk_analyzer_executor, compliance_report_executor);
                   (risk_analyzer_executor, fraud_alert_executor)] ∧
    length (wf_edges wf) = 3%nat ∧
    NoDup (wf_edges wf) ∧
    out_degree risk_analyzer_executor (wf_edges wf) = 2%nat ∧
    successors risk_analyzer_executor (wf_edges wf)
      = [compliance_report_executor; fraud_alert_executor] ∧
    nodes_of (wf_start wf) (wf_edges wf) ≡ₚ all_executors.
Proof.
  intros Hr. exists challenge2_workflow. split.
  - rewrite launch_run, (reaches_serve_first_fault w Hr).
    destruct (faults w L100_serve) as [e|]; cbn [fmap option_fmap option_map];
      [|reflexivity].
    cbn zeta. rewrite upto_serve.
    destruct (in_try L100_serve && isinstance e ImportError);
      [|destruct (in_try L100_serve && isinstance e Exception)];
      cbn [fst]; rewrite ?filter_app; reflexivity.
  - repeat split; try reflexivity.
    + apply (bool_decide_unpack _). by vm_compute.
    + change (nodes_of _ _) with
        [customer_data_executor; compliance_report_executor;
         risk_analyzer_executor; fraud_alert_executor].
      apply perm_skip, perm_swap.
Qed.

Lemma workflow_graph_topology_witness :
  ∃ wf : Workflow,
    filter (λ ev, site_of_event ev = Some L100_serve)
           (fst (launch_workflow_devui 8083 (example_world [] full_environ calm)))
      = [Serve [wf] 8083 true] ∧
    wf_start wf = customer_data_executor ∧
    roots wf = [customer_data_executor] ∧
    wf_edges wf = [(customer_data_executor, risk_analyzer_executor);
                   (risk_analyzer_executor, compliance_report_executor);
                   (risk_analyzer_executor, fraud_alert_executor)] ∧
    length (wf_edges wf) = 3%nat ∧
    NoDup (wf_edges wf) ∧
    out_degree risk_analyzer_executor (wf_edges wf) = 2%nat ∧
    successors risk_analyzer_executor (wf_edges wf)
      = [compliance_report_executor; fraud_alert_executor] ∧
    nodes_of (wf_start wf) (wf_edges wf) ≡ₚ all_executors.
Proof.
  apply (workflow_graph_topology (example_world [] full_environ calm) 8083).
  intros s _. reflexivity.
Defined.

(** ** The shape of every run *)

Lemma omap_take_nil {A B} (f : A → option B) (l : list A) (n : nat) :
  omap f l = [] → omap f (take n l) = [].
Proof.
  revert n. induction l as [|a l IH]; intros [|n]; cbn; try done.
  destruct (f a); [done|]. apply IH.
Qed.

Lemma upto_take (s : site) (port : Z) (w : World) :
  upto s (launch_events port w)
  = take (if bool_decide (s = L100_serve) then 21 else S (site_index s))
         (launch_events port w).
Proof. by destruct s. Qed.

(** Every trace of [main] is the banner, the events of the gate, an
    initial part of the launch (empty only when the gate is shut), and at
    most two lines of report. *)
Lemma run_shape (w : World) :
  ∃ (n : nat) (extra : list event),
    trace_of (run w) =
      (banner_events ++ gate_events w
       ++ take n (launch_events (args_port (cli w)) w) ++ extra)%list ∧
    (∀ B (f : event → option B), (∀ s, f (Print s) = None) → omap f extra = []) ∧
    (gate_open w = true → (0 < n)%nat) ∧
    (gate_open w = false → n = 0%nat).
Proof.
  destruct (gate_open w) eqn:Hg.
  - destruct (first_fault w) as [[s e]|] eqn:Hf.
    + rewrite (run_raising w s e Hg Hf). cbn zeta. rewrite upto_take.
      eexists.
      destruct (in_try s && isinstance e ImportError);
        [|destruct (in_try s && isinstance e Exception);
          [|destruct (isinstance e KeyboardInterrupt);
            [|destruct (isinstance e Exception)]]];
        cbn [trace_of fst]; rewrite <- ?app_assoc;
        eexists; (split; [try reflexivity|]).
      5: { instantiate (1 := []). by rewrite app_nil_r. }
      all: split; [intros B f Hp; cbn; by rewrite ?Hp|];
        split; [|done]; intros _; destruct s; vm_compute; lia.
    + rewrite (run_calm w Hg Hf). exists 21%nat, []. cbn [trace_of fst].
      split; [by rewrite app_nil_r|]. split; [done|]. split; [lia|done].
  - rewrite (run_gate_shut w Hg). exists 0%nat, []. cbn [trace_of fst].
    split; [by rewrite !app_nil_r|]. by repeat split.
Qed.

Lemma gate_open_flag (w : World) :
  args_no_env_check (cli w) = true → gate_open w = true ∧ gate_events w = [].
Proof. intros H. unfold gate_open, gate_events. by rewrite H. Qed.

(** C4. With [--no-env-check] the validator does not run: no variable is
    read from the environment, the launch starts right after the banner,
    and the whole run is the same whatever the environment holds.  In
    particular, with an empty environment and no call before [serve]
    raising, every external call of the launch is made, in order, and
    [serve] is called with the declared workflow. *)
Theorem no_env_check_skips_validator (w : World) :
  args_no_env_check (cli w) = true →
  env_reads (trace_of (run w)) = [] ∧
  (∀ env, run (with_environ env w) = run w) ∧
  (∃ t, trace_of (run w) = (banner_events ++ Enter L61_import_serve :: t)%list) ∧
  (reaches_serve w →
     Serve [challenge2_workflow] (args_port (cli w)) true
       ∈ trace_of (run (with_environ ∅ w)) ∧
     omap site_of_event (trace_of (run (with_environ ∅ w))) = launch_sites).
Proof.
  intros Hflag. destruct (gate_open_flag w Hflag) as [Hg Hge].
  destruct (run_shape w) as (n & extra & Ht & Hextra & Hn & _).
  rewrite Hge in Ht. cbn [app] in Ht.
  split; [|split; [|split]].
  - rewrite Ht. unfold env_reads.
    rewrite !omap_app, Hextra, omap_take_nil by done. reflexivity.
  - intros env. unfold run. rewrite !main_run.
    change (cli (with_environ env w)) with (cli w).
    rewrite launch_environ_irrelevant.
    unfold gate_open, gate_events.
    change (cli (with_environ env w)) with (cli w).
    by rewrite Hflag.
  - specialize (Hn Hg). destruct n as [|n]; [lia|].
    rewrite Ht. eexists. reflexivity.
  - intros Hr.
    destruct (gate_open_flag (with_environ ∅ w) Hflag) as [Hg' Hge'].
    destruct (run_reaches_serve (with_environ ∅ w) Hg' Hr) as (ex & Ht' & Hex & _).
    rewrite Ht', Hge'. cbn [app].
    split.
    + rewrite !elem_of_app. right. left. apply serve_in_launch_events.
    + rewrite !omap_app.
      destruct Hex as [->|[[s ->]|(s & s' & ->)]]; reflexivity.
Qed.

Lemma no_env_check_skips_validator_witness :
  let w := example_world [opt_no_env_check] ∅ calm in
  env_reads (trace_of (run w)) = [] ∧
  Serve [challenge2_workflow] 8083 true ∈ trace_of (run (with_environ ∅ w)) ∧
  omap site_of_event (trace_of (run (with_environ ∅ w))) = launch_sites.
Proof.
  intros w.
  destruct (no_env_check_skips_validator w) as (Hreads & _ & _ & Hserve).
  - reflexivity.
  - split; [exact Hreads|]. apply Hserve. intros s _. reflexivity.
Defined.

(** ** The port *)

Lemma fold_store_flags (l : list cli_arg) (ns : Namespace) :
  Forall (λ a, a = opt_no_env_check) l →
  args_port (fold_left store_arg l ns) = args_port ns.
Proof.
  intros Hl. revert ns. induction Hl as [|a l -> _ IH]; intros ns; [done|].
  cbn. by rewrite IH.
Qed.

(** C5. The port given to [serve]: when the gate is open and no call
    before [serve] raises, [serve] is called once, with the port of the
    parsed command line.  That port is 8083 when the command line has no
    [--port] option, and [N] when its last [--port] option is
    [--port N]. *)
Theorem port_given_to_serve (w : World) :
  gate_open w = true →
  reaches_serve w →
  served_ports (trace_of (run w)) = [args_port (cli w)] ∧
  (Forall (λ a, a = opt_no_env_check) (sys_argv w) →
     served_ports (trace_of (run w)) = [8083]) ∧
  (∀ N pre post,
     sys_argv w = (pre ++ opt_port N :: post)%list →
     Forall (λ a, a = opt_no_env_check) post →
     served_ports (trace_of (run w)) = [N]).
Proof.
  intros Hg Hr.
  destruct (run_reaches_serve w Hg Hr) as (ex & Ht & Hex & _).
  assert (served_ports (trace_of (run w)) = [args_port (cli w)]) as Hport.
  { rewrite Ht. unfold served_ports.
    rewrite !omap_app. fold (served_ports (gate_events w)).
    rewrite served_ports_gate_events.
    destruct Hex as [->|[[s ->]|(s & s' & ->)]]; reflexivity. }
  rewrite Hport. split; [done|]. split.
  - intros Hflags. unfold cli. by rewrite fold_store_flags.
  - intros N pre post Hargv Hpost. unfold cli.
    rewrite Hargv, fold_left_app. cbn [fold_left].
    by rewrite fold_store_flags.
Qed.

Lemma port_given_to_serve_witness :
  served_ports (trace_of (run (example_world [] full_environ calm))) = [8083] ∧
  served_ports (trace_of (run (example_world [opt_port 9000] full_environ calm))) = [9000].
Proof.
  split.
  - destruct (port_given_to_serve (example_world [] full_environ calm))
      as (_ & Hdefault & _).
    + vm_compute. reflexivity.
    + intros s _. reflexivity.
    + apply Hdefault. constructor.
  - destruct (port_given_to_serve (example_world [opt_port 9000] full_environ calm))
      as (_ & _ & Hport).
    + vm_compute. reflexivity.
    + intros s _. reflexivity.
    + apply (Hport 9000 [] []); [reflexivity|constructor].
Defined.

(** ** The order of the startup states *)

Lemma states_gate_events (w : World) :
  omap state_of_event (gate_events w)
  = if args_no_env_check (cli w) then [] else replicate 7 EnvChecked.
Proof.
  unfold gate_events. destruct (args_no_env_check (cli w)); [done|].
  rewrite omap_app, omap_missing_report by done. reflexivity.
Qed.

Lemma omap_banner {B} (f : event → option B) :
  (∀ s, f (Print s) = None) → (∀ l fmt, f (BasicConfig l fmt) = None) →
  omap f banner_events = [].
Proof. intros Hp Hb. cbn. by rewrite Hb, !Hp. Qed.

Lemma sites_gate_events (w : World) : omap site_of_event (gate_events w) = [].
Proof.
  unfold gate_events. destruct (args_no_env_check (cli w)); [done|].
  rewrite omap_app, omap_missing_report by done. reflexivity.
Qed.

Lemma launch_events_length (port : Z) (w : World) :
  length (launch_events port w) = 21%nat.
Proof. reflexivity. Qed.

(** An initial part of the launch goes through [GraphBuilt], then
    [Serving], and visits the call sites in order. *)
Lemma launch_states (port : Z) (w : World) (n : nat) :
  ∃ k, omap state_of_event (take n (launch_events port w))
         = take k (replicate 10 GraphBuilt ++ [Serving])%list ∧
       omap site_of_event (take n (launch_events port w)) = take k launch_sites.
Proof.
  destruct (decide (21 ≤ n)%nat) as [Hge|Hlt].
  - exists 11%nat. rewrite take_ge by (rewrite launch_events_length; lia).
    by split.
  - exists (Nat.min n 10).
    do 21 (destruct n as [|n]; [split; reflexivity|]). lia.
Qed.

Lemma sorted_states (flag : bool) (k : nat) (code : Z) :
  StronglySorted (λ a b, rank a ≤ rank b)%nat
    (NotStarted
     :: (if flag then [] else replicate 7 EnvChecked)
        ++ take k (replicate 10 GraphBuilt ++ [Serving])
        ++ [final_state code])%list.
Proof.
  unfold final_state.
  destruct flag, (bool_decide (code = 0));
    (destruct (decide (11 ≤ k)%nat) as [Hge|Hlt];
     [ rewrite take_ge by (cbn; lia); apply (bool_decide_unpack _); by vm_compute
     | do 11 (destruct k as [|k]; [apply (bool_decide_unpack _); by vm_compute|]);
       lia ]).
Qed.

Lemma nothing_after {A B C} (f : A → option B) (g : A → option C)
    (pre rest t1 t2 : list A) (x : A) :
  omap f pre = [] → omap g rest = [] →
  (pre ++ rest)%list = (t1 ++ x :: t2)%list →
  is_Some (f x) → omap g t2 = [].
Proof.
  revert t1. induction pre as [|a pre IH]; intros t1 Hpre Hrest Heq [y Hy].
  - cbn in Heq. subst rest. rewrite omap_app in Hrest.
    apply app_eq_nil in Hrest as [_ Hrest]. cbn in Hrest.
    by destruct (g x).
  - cbn in Hpre. destruct t1 as [|a' t1]; cbn in Heq; injection Heq as -> Heq.
    + by rewrite Hy in Hpre.
    + destruct (f a'); [done|]. by apply (IH t1).
Qed.

(** C8. The startup states are gone through in one direction: along any
    run, from [NotStarted] to the final [Stopped] or [Failed], the states
    of the events never step back (environment check, then graph build,
    then serving).  No external call of the launch is made twice, and
    once the launch has made a call, whether the call fails or not, the
    environment is never read again. *)
Theorem startup_one_directional (w : World) :
  StronglySorted (λ a b, rank a ≤ rank b)%nat (path (run w)) ∧
  NoDup (omap site_of_event (trace_of (run w))) ∧
  (∀ t1 ev t2,
     trace_of (run w) = (t1 ++ ev :: t2)%list →
     is_Some (site_of_event ev) →
     env_reads t2 = []) ∧
  (env_reads (trace_of (run w)) = [] ∨ env_reads (trace_of (run w)) = required_vars).
Proof.
  destruct (run_shape w) as (n & extra & Ht & Hextra & _ & _).
  destruct (launch_states (args_port (cli w)) w n) as (k & Hst & Hsi).
  split; [|split; [|split]].
  - unfold path. rewrite Ht, !omap_app, states_gate_events, Hst, Hextra by done.
    rewrite app_nil_r, omap_banner by done. cbn [app].
    rewrite <- app_assoc. apply sorted_states.
  - rewrite Ht, !omap_app, sites_gate_events, Hsi, Hextra by done.
    rewrite app_nil_r, omap_banner by done. cbn [app].
    eapply sublist_NoDup; [|apply sublist_take].
    apply (bool_decide_unpack _). by vm_compute.
  - intros t1 ev t2 Heq Hev. rewrite Ht, app_assoc in Heq.
    assert (omap site_of_event (banner_events ++ gate_events w)%list = []) as Hpre
      by (by rewrite omap_app, sites_gate_events, omap_banner).
    assert (env_reads (take n (launch_events (args_port (cli w)) w) ++ extra)%list = [])
      as Hrest.
    { unfold env_reads. by rewrite omap_app, Hextra, omap_take_nil. }
    exact (nothing_after _ _ _ _ _ _ _ Hpre Hrest Heq Hev).
  - rewrite Ht. unfold env_reads.
    rewrite !omap_app, Hextra, (omap_take_nil _ _ n) by done.
    rewrite !app_nil_r, omap_banner by done. cbn [app].
    unfold gate_events. destruct (args_no_env_check (cli w)); [by left|].
    right. rewrite omap_app, omap_missing_report by done. reflexivity.
Qed.

Lemma startup_one_directional_witness :
  let w := example_world [] (delete "COSMOS_KEY" full_environ)
             (raising L86_build (mk_exn ValueError "duplicate edge" 0)) in
  StronglySorted (λ a b, rank a ≤ rank b)%nat (path (run w)) ∧
  NoDup (omap site_of_event (trace_of (run w))).
Proof.
  intros w. destruct (startup_one_directional w) as (Hsorted & Hnodup & _).
  split; [exact Hsorted | exact Hnodup].
Defined.

(** ** The [.env] file *)

Lemma lookup_load_dotenv (override : bool) (dotenv : gmap string (option string))
    (env : gmap string string) (k : string) :
  load_dotenv override dotenv env !! k =
    match dotenv !! k, env !! k with
    | Some (Some v), Some old => if override then Some v else Some old
    | Some (Some v), None => Some v
    | _, old => old
    end.
Proof.
  unfold load_dotenv. rewrite lookup_merge.
  by destruct (dotenv !! k) as [[v|]|], (env !! k).
Qed.

(** C9. The [.env] file is loaded with override before [main] runs: a
    variable to which the file gives a value has that value afterwards,
    whatever the process environment held, and the other variables are
    untouched.  The validator then judges this environment: its report
    lists exactly the required keys that are missing after the load.  So
    a required key that the file sets to the empty string is reported
    and stops the script with exit code 1 even if the process environment
    had it set, and when the file gives every required key a non-empty
    value the validator passes whatever the process environment held. *)
Theorem dotenv_overrides_before_validation
    (dotenv : gmap string (option string)) (w : World) :
  let loaded := load_dotenv true dotenv (environ w) in
  (∀ k v, dotenv !! k = Some (Some v) → loaded !! k = Some v) ∧
  (∀ k, dotenv !! k = None ∨ dotenv !! k = Some None → loaded !! k = environ w !! k) ∧
  (args_no_env_check (cli w) = false →
     (∃ reported rest,
        trace_of (run_script dotenv w)
          = (banner_events ++ map Getenv required_vars
             ++ missing_report reported ++ rest)%list ∧
        ∀ k, k ∈ reported ↔ k ∈ required_vars ∧ is_missing loaded k) ∧
     (∀ k, k ∈ required_vars → dotenv !! k = Some (Some "") →
        exit_code (run_script dotenv w) = 1 ∧
        Print ("   - " ++ k) ∈ trace_of (run_script dotenv w)) ∧
     ((∀ k, k ∈ required_vars → ∃ v, dotenv !! k = Some (Some v) ∧ v ≠ "") →
        Print "✅ All required environment variables are set"
          ∈ trace_of (run_script dotenv w))).
Proof.
  intros loaded.
  assert (∀ k v, dotenv !! k = Some (Some v) → loaded !! k = Some v) as Hover.
  { intros k v Hk. unfold loaded. rewrite lookup_load_dotenv, Hk.
    by destruct (environ w !! k). }
  split; [exact Hover|]. split.
  { intros k Hk. unfold loaded. rewrite lookup_load_dotenv.
    by destruct Hk as [-> | ->]. }
  intros Hflag.
  set (w' := with_environ loaded w).
  change (run_script dotenv w) with (run w').
  assert (gate_events w' =
          (map Getenv required_vars ++ missing_report (missing_vars_of w'))%list)
    as Hge.
  { unfold gate_events. change (cli w') with (cli w). by rewrite Hflag. }
  destruct (run_shape w') as (n & extra & Ht & _ & _ & _).
  rewrite Hge, <- !app_assoc in Ht.
  split; [|split].
  - exists (missing_vars_of w'). eexists. split; [exact Ht|].
    intros k. apply (elem_of_missing_vars_of w').
  - intros k Hk Hempty.
    assert (k ∈ missing_vars_of w') as Hin.
    { apply elem_of_missing_vars_of. split; [done|]. right.
      apply (Hover k "" Hempty). }
    split.
    + assert (gate_open w' = false) as Hg.
      { rewrite gate_open_eq. change (cli w') with (cli w). rewrite Hflag.
        apply bool_decide_eq_false_2. intros Hnil. rewrite Hnil in Hin.
        by apply not_elem_of_nil in Hin. }
      by rewrite (run_gate_shut w' Hg).
    + rewrite Ht, !elem_of_app. right. right. left.
      by apply missing_report_elem.
  - intros Hall.
    assert (missing_vars_of w' = []) as Hnil.
    { apply missing_vars_of_nil. intros k Hk.
      destruct (Hall k Hk) as (v & Hv & Hne). exists v. split; [|done].
      apply (Hover k v Hv). }
    rewrite Ht, Hnil, !elem_of_app. right. right. left. apply list_elem_of_here.
Qed.

Lemma dotenv_overrides_before_validation_witness :
  let dotenv : gmap string (option string) := {[ "COSMOS_KEY" := Some "" ]} in
  let w := example_world [] full_environ calm in
  environ w !! "COSMOS_KEY" = Some "set" ∧
  exit_code (run_script dotenv w) = 1 ∧
  Print ("   - " ++ "COSMOS_KEY") ∈ trace_of (run_script dotenv w).
Proof.
  intros dotenv w.
  destruct (dotenv_overrides_before_validation dotenv w) as (_ & _ & Hjudge).
  destruct (Hjudge eq_refl) as (_ & Hempty & _).
  split; [reflexivity|].
  apply (Hempty "COSMOS_KEY"); [|reflexivity].
  do 3 apply list_elem_of_further. apply list_elem_of_here.
Defined.

Lemma check_environment_exact_witness :
  ∃ reported : list string,
    fst (check_environment (example_world [] (delete "COSMOS_KEY" full_environ) calm))
      = (map Getenv required_vars ++ missing_report reported)%list ∧
    reported ≠ [].
Proof.
  destruct (check_environment_exact
              (example_world [] (delete "COSMOS_KEY" full_environ) calm))
    as (reported & Ht & _ & _ & _ & _ & Hfalse & _).
  exists reported. split; [exact Ht|].
  apply Hfalse. vm_compute. reflexivity.
Defined.

Lemma empty_string_same_as_unset_witness :
  let w := example_world [] full_environ calm in
  let w_empty := with_environ (<["COSMOS_KEY":=""]> (environ w)) w in
  let w_unset := with_environ (delete "COSMOS_KEY" (environ w)) w in
  check_environment w_empty = check_environment w_unset ∧
  snd (check_environment w_empty) = Returned false ∧
  snd (check_environment w_unset) = Returned false ∧
  Print ("   - " ++ "COSMOS_KEY") ∈ fst (check_environment w_empty) ∧
  Print ("   - " ++ "COSMOS_KEY") ∈ fst (check_environment w_unset).
Proof.
  intros w.
  apply (empty_string_same_as_unset w "COSMOS_KEY").
  do 3 apply list_elem_of_further. apply list_elem_of_here.
Defined.

(** * Further properties of the launcher *)

(** ** The first call that raises *)

Lemma first_fault_Some (w : World) (s : site) (e : exn) :
  first_fault w = Some (s, e) → raises_first w s e.
Proof.
  unfold first_fault. cbn. intros H.
  repeat match type of H with
         | match faults w ?s' with _ => _ end = _ =>
             let Hs := fresh "Hs" in
             destruct (faults w s') eqn:Hs;
             [ injection H as <- <-; split; [exact Hs|];
               intros s'' Hlt; destruct s''; cbn in Hlt; (lia || assumption)
             | ]
         end.
  discriminate.
Qed.

Lemma first_fault_None (w : World) :
  first_fault w = None ↔ ∀ s, faults w s = None.
Proof.
  split.
  - unfold first_fault. cbn. intros H.
    repeat match type of H with
           | match faults w ?s' with _ => _ end = _ =>
               let Hs := fresh "Hs" in
               destruct (faults w s') eqn:Hs; [discriminate|]
           end.
    intros s. by destruct s.
  - intros H. unfold first_fault. cbn. by rewrite !H.
Qed.

Lemma raises_first_unique (w : World) (s s' : site) (e e' : exn) :
  raises_first w s e → raises_first w s' e' → s = s' ∧ e = e'.
Proof.
  intros H H'. apply raises_first_first_fault in H, H'.
  rewrite H in H'. by injection H' as -> ->.
Qed.

(** ** The gate of [main] *)

Lemma missing_report_last (m : string) (ms : list string) :
  last (missing_report (m :: ms))
  = Some (Print (nl ++ "Please set these variables in your .env file.")).
Proof.
  unfold missing_report.
  change (Print "❌ Missing required environment variables:"
          :: (map (λ var, Print ("   - " ++ var)) (m :: ms)
              ++ [Print (nl ++ "Please set these variables in your .env file.")]))%list
    with ((Print "❌ Missing required environment variables:"
           :: map (λ var, Print ("   - " ++ var)) (m :: ms))
          ++ [Print (nl ++ "Please set these variables in your .env file.")])%list.
  apply last_snoc.
Qed.

(** X1. Without [--no-env-check], a required key that is unset or empty
    stops the script before the launch: the exit code is 1, no external
    call of the launch is made ([serve] is not imported, the directory is
    not changed, nothing is built or served), the line of the key is
    printed, and the advice about the [.env] file is the last line. *)
Theorem missing_key_blocks_launch (w : World) (k : string) :
  args_no_env_check (cli w) = false →
  k ∈ required_vars →
  is_missing (environ w) k →
  exit_code (run w) = 1 ∧
  omap site_of_event (trace_of (run w)) = [] ∧
  Print ("   - " ++ k) ∈ trace_of (run w) ∧
  last (trace_of (run w))
    = Some (Print (nl ++ "Please set these variables in your .env file.")).
Proof.
  intros Hflag Hk Hmiss.
  assert (k ∈ missing_vars_of w) as Hin
    by (apply elem_of_missing_vars_of; by split).
  assert (gate_open w = false) as Hg.
  { rewrite gate_open_eq, Hflag. apply bool_decide_eq_false_2.
    intros Hnil. rewrite Hnil in Hin. by apply not_elem_of_nil in Hin. }
  rewrite (run_gate_shut w Hg). cbn [exit_code trace_of fst snd].
  split; [done|]. split; [|split].
  - by rewrite omap_app, sites_gate_events, omap_banner.
  - unfold gate_events. rewrite Hflag, !elem_of_app. right. right.
    by apply missing_report_elem.
  - unfold gate_events. rewrite Hflag, !app_assoc.
    destruct (missing_vars_of w) as [|m ms]; [by apply not_elem_of_nil in Hin|].
    rewrite last_app, missing_report_last. reflexivity.
Qed.

Lemma missing_key_blocks_launch_witness :
  let w := example_world [opt_port 9000] (<["COSMOS_KEY":=""]> full_environ) calm in
  exit_code (run w) = 1 ∧
  omap site_of_event (trace_of (run w)) = [] ∧
  Print ("   - " ++ "COSMOS_KEY") ∈ trace_of (run w) ∧
  last (trace_of (run w))
    = Some (Print (nl ++ "Please set these variables in your .env file.")).
Proof.
  intros w. apply (missing_key_blocks_launch w "COSMOS_KEY").
  - reflexivity.
  - do 3 apply list_elem_of_further. apply list_elem_of_here.
  - right. reflexivity.
Defined.

(** ** What leaves [launch_workflow_devui] and [main] *)

(** X2. The import of [serve] on line 61 is outside the [try] block: an
    exception of class [Exception] that it raises, an [ImportError]
    included, is not handled by the launch (no import diagnostic, no
    advice); [main] reports it as a launch error and the process ends
    with exit code 1, nothing else of the launch having run. *)
Theorem serve_import_failure_reported_by_main (w : World) (e : exn) :
  gate_open w = true →
  faults w L61_import_serve = Some e →
  isinstance e Exception = true →
  launch_workflow_devui (args_port (cli w)) w = ([Enter L61_import_serve], Raised e) ∧
  run w =
    ((banner_events ++ gate_events w
      ++ [Enter L61_import_serve;
          Print ("❌ Error launching DevUI: " ++ exn_str e)])%list, 1).
Proof.
  intros Hg Hf Hex.
  assert (first_fault w = Some (L61_import_serve, e)) as Hff
    by (unfold first_fault; cbn; by rewrite Hf).
  split.
  - rewrite launch_run, Hff. reflexivity.
  - rewrite (run_raising w _ _ Hg Hff). cbn zeta.
    rewrite Hex, (isinstance_Exception_not_interrupt e Hex).
    cbn [in_try bool_decide decide_rel negb andb].
    change (in_try L61_import_serve) with false. cbn [andb].
    by rewrite <- !app_assoc.
Qed.

Lemma serve_import_failure_reported_by_main_witness :
  let e := mk_exn ModuleNotFoundError "No module named 'agent_framework'" 0 in
  let w := example_world [] full_environ (raising L61_import_serve e) in
  launch_workflow_devui (args_port (cli w)) w = ([Enter L61_import_serve], Raised e) ∧
  run w =
    ((banner_events ++ gate_events w
      ++ [Enter L61_import_serve;
          Print ("❌ Error launching DevUI: " ++ exn_str e)])%list, 1).
Proof.
  intros e w. apply (serve_import_failure_reported_by_main w e).
  - vm_compute. reflexivity.
  - reflexivity.
  - reflexivity.
Defined.




Lemma served_ports_upto (s : site) (port : Z) (w : World) :
  s ≠ L100_serve → served_ports (upto s (launch_events port w)) = [].
Proof. intros Hs. by destruct s. Qed.

(** X4. [serve] is never called after a failure: when the gate is shut,
    or when any external call before [serve] raises (whatever it raises),
    no call of [serve] appears in the run. *)
Theorem serve_not_called_after_failure (w : World) :
  (gate_open w = false ∨ ∃ s e, s ≠ L100_serve ∧ raises_first w s e) →
  served_ports (trace_of (run w)) = [] ∧
  ∀ entities port auto_open, Serve entities port auto_open ∉ trace_of (run w).
Proof.
  intros H.
  assert (served_ports (trace_of (run w)) = []) as Hnone.
  { destruct (gate_open w) eqn:Hg.
    - destruct H as [?|(s & e & Hs & Hf)]; [done|].
      apply raises_first_first_fault in Hf.
      rewrite (run_raising w _ _ Hg Hf). cbn zeta.
      destruct (in_try s && isinstance e ImportError);
        [|destruct (in_try s && isinstance e Exception);
          [|destruct (isinstance e KeyboardInterrupt);
            [|destruct (isinstance e Exception)]]];
        cbn [trace_of fst]; unfold served_ports; rewrite !omap_app;
        fold (served_ports (gate_events w));
        fold (served_ports (upto s (launch_events (args_port (cli w)) w)));
        by rewrite served_ports_gate_events, served_ports_upto.
    - rewrite (run_gate_shut w Hg). cbn [trace_of fst]. unfold served_ports.
      rewrite omap_app. fold (served_ports (gate_events w)).
      by rewrite served_ports_gate_events. }
  split; [exact Hnone|].
  intros entities port auto_open Hin.
  assert (port ∈ served_ports (trace_of (run w))) as Hp.
  { unfold served_ports. apply list_elem_of_omap.
    exists (Serve entities port auto_open). by split. }
  rewrite Hnone in Hp. by apply not_elem_of_nil in Hp.
Qed.

Lemma serve_not_called_after_failure_witness :
  let w := example_world [] full_environ (raising L86_build address_in_use) in
  served_ports (trace_of (run w)) = [] ∧
  ∀ entities port auto_open, Serve entities port auto_open ∉ trace_of (run w).
Proof.
  intros w. apply (serve_not_called_after_failure w).
  right. exists L86_build, address_in_use. split.
  - discriminate.
  - apply raising_raises_first.
Defined.

(** X5. What [launch_workflow_devui] lets out: it returns exactly when no
    external call raises, and an exception of class [Exception] leaves
    it only when the import of [serve] on line 61 raised it; every
    [Exception] raised inside the [try] block is turned into
    [sys.exit(1)]. *)
Theorem launch_outcome (w : World) (port : Z) :
  (snd (launch_workflow_devui port w) = Returned tt ↔ ∀ s, faults w s = None) ∧
  (∀ e, snd (launch_workflow_devui port w) = Raised e →
        isinstance e Exception = true →
        faults w L61_import_serve = Some e) ∧
  (∀ s e, raises_first w s e → in_try s = true → isinstance e Exception = true →
        snd (launch_workflow_devui port w) = Raised (mk_exn SystemExit "1" 1)).
Proof.
  rewrite launch_run.
  destruct (first_fault w) as [[s e]|] eqn:Hff.
  - pose proof (first_fault_Some w s e Hff) as [Hs Hbefore].
    split; [|split].
    + split.
      * cbn zeta.
        destruct (in_try s && isinstance e ImportError);
          [|destruct (in_try s && isinstance e Exception)]; discriminate.
      * intros Hnone. by rewrite Hnone in Hs.
    + intros e'. cbn zeta.
      destruct (in_try s && isinstance e ImportError) eqn:H1;
        [intros [= <-]; discriminate|].
      destruct (in_try s && isinstance e Exception) eqn:H2;
        [intros [= <-]; discriminate|].
      intros [= <-] Hex. rewrite Hex, andb_true_r in H2.
      destruct s; try discriminate. exact Hs.
    + intros s' e' Hf' Htry Hex.
      destruct (raises_first_unique w s s' e e' (conj Hs Hbefore) Hf') as [<- <-].
      cbn zeta. rewrite Htry, Hex.
      by destruct (isinstance e ImportError).
  - split; [|split].
    + split; [intros _; by apply first_fault_None | done].
    + intros e. discriminate.
    + intros s e Hf. apply raises_first_first_fault in Hf. congruence.
Qed.

Lemma launch_outcome_witness :
  snd (launch_workflow_devui 8083
         (example_world [] full_environ (raising L100_serve address_in_use)))
  = Raised (mk_exn SystemExit "1" 1).
Proof.
  destruct (launch_outcome
              (example_world [] full_environ (raising L100_serve address_in_use)) 8083)
    as (_ & _ & H).
  apply (H L100_serve address_in_use).
  - apply raising_raises_first.
  - reflexivity.
  - reflexivity.
Defined.

(** ** The validator and single variables *)

Lemma filter_ext_elem {A} (P Q : A → Prop)
    `{!∀ x, Decision (P x)} `{!∀ x, Decision (Q x)} (l : list A) :
  (∀ x, x ∈ l → (P x ↔ Q x)) → filter P l = filter Q l.
Proof.
  induction l as [|a l IH]; intros Hall; [done|].
  rewrite !filter_cons.
  assert (P a ↔ Q a) as Ha by (apply Hall; left).
  rewrite IH by (intros x Hx; apply Hall; by right).
  destruct (decide (P a)), (decide (Q a)); tauto.
Qed.

(** X8. The validator looks at the seven required variables only: setting
    or deleting any other variable of the environment, to any value,
    changes nothing in its reads, its report or its result. *)
Theorem validator_ignores_other_variables (w : World) (k : string) (v : option string) :
  k ∉ required_vars →
  check_environment (set_var k v w) = check_environment w.
Proof.
  intros Hk. rewrite !check_environment_run.
  assert (missing_vars_of (set_var k v w) = missing_vars_of w) as ->; [|done].
  unfold missing_vars_of, set_var, with_environ. cbn [environ].
  apply filter_ext_elem. intros k' Hk'.
  rewrite lookup_partial_alter_ne; [done|]. by intros ->.
Qed.

Lemma validator_ignores_other_variables_witness :
  let w := example_world [] (delete "COSMOS_KEY" full_environ) calm in
  check_environment (set_var "PATH" (Some "") w) = check_environment w.
Proof.
  intros w. apply (validator_ignores_other_variables w "PATH" (Some "")).
  apply (bool_decide_unpack _). vm_compute. reflexivity.
Defined.

Lemma missing_vars_of_set (w : World) (k v : string) :
  v ≠ "" →
  missing_vars_of (set_var k (Some v) w) = filter (λ k', k' ≠ k) (missing_vars_of w).
Proof.
  intros Hv. unfold missing_vars_of. rewrite list_filter_filter.
  apply list_filter_iff. intros k'.
  unfold set_var, with_environ. cbn [environ].
  destruct (decide (k = k')) as [->|Hne].
  - rewrite lookup_partial_alter_eq. cbn.
    rewrite bool_decide_eq_false_2 by done. cbn. split; [done|]. by intros [? _].
  - rewrite lookup_partial_alter_ne by done. split; [|by intros [_ ?]].
    intros ?. split; [|done]. by intros ->.
Qed.

(** X9. Giving one variable a non-empty value removes the line of that
    variable from the validator's report and changes no other line; the
    validator then passes exactly when no other key was reported. *)
Theorem setting_a_key_removes_its_line (w : World) (k v : string) :
  v ≠ "" →
  ∃ reported : list string,
    fst (check_environment w)
      = (map Getenv required_vars ++ missing_report reported)%list ∧
    fst (check_environment (set_var k (Some v) w))
      = (map Getenv required_vars
         ++ missing_report (filter (λ k', k' ≠ k) reported))%list ∧
    (snd (check_environment (set_var k (Some v) w)) = Returned true ↔
       ∀ k', k' ∈ reported → k' = k).
Proof.
  intros Hv. exists (missing_vars_of w).
  rewrite !check_environment_run, (missing_vars_of_set w k v Hv). cbn [fst snd].
  split; [done|]. split; [done|].
  split.
  - intros [= Hb]. apply bool_decide_eq_true in Hb. intros k' Hk'.
    destruct (decide (k' = k)) as [|Hne]; [done|].
    assert (k' ∈ filter (λ k', k' ≠ k) (missing_vars_of w)) as Hin
      by (by apply list_elem_of_filter).
    rewrite Hb in Hin. by apply not_elem_of_nil in Hin.
  - intros Hall. rewrite bool_decide_eq_true_2; [done|].
    destruct (filter (λ k', k' ≠ k) (missing_vars_of w)) as [|k' ks] eqn:Hf; [done|].
    assert (k' ∈ filter (λ k', k' ≠ k) (missing_vars_of w)) as Hin
      by (rewrite Hf; left).
    apply list_elem_of_filter in Hin as [Hne Hin]. by specialize (Hall k' Hin).
Qed.

Lemma setting_a_key_removes_its_line_witness :
  let w := example_world [] (delete "COSMOS_KEY" full_environ) calm in
  ∃ reported : list string,
    fst (check_environment w)
      = (map Getenv required_vars ++ missing_report reported)%list ∧
    fst (check_environment (set_var "COSMOS_KEY" (Some "secret") w))
      = (map Getenv required_vars
         ++ missing_report (filter (λ k', k' ≠ "COSMOS_KEY") reported))%list ∧
    (snd (check_environment (set_var "COSMOS_KEY" (Some "secret") w)) = Returned true ↔
       ∀ k', k' ∈ reported → k' = "COSMOS_KEY").
Proof.
  intros w. apply (setting_a_key_removes_its_line w "COSMOS_KEY" "secret").
  discriminate.
Defined.

(** ** The events of a launch *)

(** The events of a launch in which no call raises, written out. *)
Lemma launch_events_explicit (port : Z) (w : World) :
  launch_events port w =
    [Enter L61_import_serve; Chdir (str_path (agents_dir w)); Enter L68_import_executors;
     Enter L74_import_WorkflowBuilder; Enter L78_WorkflowBuilder;
     Enter L82_set_start_executor; Enter L83_add_edge; Enter L84_add_edge;
     Enter L85_add_edge; Enter L86_build;
     Print ("🚀 Launching Challenge 2 DevUI on port " ++ pretty port);
     Print "🔄 Workflow: 4-Agent Fraud Detection with MCP Integration";
     Print "   Architecture: Customer Data → Risk Analyzer → [Compliance Report + Fraud Alert]";
     Print ("🌐 Access at: http://localhost:" ++ pretty port);
     Print (nl ++ "💡 Features:");
     Print "   • Real-time Cosmos DB integration";
     Print "   • Azure AI Foundry agents";
     Print "   • MCP Server integration for fraud alerts";
     Print "   • Parallel executor processing";
     Print "   • Complete audit trail generation";
     Serve [challenge2_workflow] port true].
Proof. reflexivity. Qed.

Lemma isinstance_interrupt_iff (e : exn) :
  isinstance e KeyboardInterrupt = true ↔ exn_cls e = KeyboardInterrupt.
Proof. destruct e as [[] msg code]; by cbn. Qed.

(** ** What a call of [serve] tells about the run *)





(** ** The calls of [os.chdir] *)

(** A script started as [python devui_launcher.py] has the directory
    [.], and [pathlib] writes its [agents] directory without the dot;
    under the root it writes one slash. *)
Lemma str_path_agents_examples :
  str_path (joinpath (mk_path "" []) "agents") = "agents" ∧
  str_path (joinpath (mk_path "/" []) "agents") = "/agents" ∧
  str_path (joinpath (mk_path "" ["challenge-2"]) "agents") = "challenge-2/agents".
Proof. by repeat split. Qed.

Lemma chdir_calls_gate_events (w : World) : chdir_calls (gate_events w) = [].
Proof.
  unfold gate_events, chdir_calls. destruct (args_no_env_check (cli w)); [done|].
  rewrite omap_app, omap_missing_report by done. reflexivity.
Qed.

Lemma chdir_calls_upto (s : site) (port : Z) (w : World) :
  chdir_calls (upto s (launch_events port w))
  = if bool_decide (s = L61_import_serve) then [] else [str_path (agents_dir w)].
Proof. by destruct s. Qed.

(** X12. [os.chdir] is called exactly when the gate is open and the
    import of [serve] does not raise.  It is then called once, with the
    [agents] directory under the directory of the script as [pathlib]
    writes it, before the later calls, so also in runs that then fail,
    the call itself included; the script never calls it a second time,
    so it never changes the directory back. *)
Theorem chdir_iff_serve_imported (w : World) :
  (gate_open w = true → faults w L61_import_serve = None →
     chdir_calls (trace_of (run w)) = [str_path (agents_dir w)]) ∧
  (gate_open w = false ∨ is_Some (faults w L61_import_serve) →
     chdir_calls (trace_of (run w)) = []).
Proof.
  assert (∀ t extra, chdir_calls extra = [] →
            chdir_calls (banner_events ++ gate_events w ++ t ++ extra) = chdir_calls t)
    as Hframe.
  { intros t extra Hextra. unfold chdir_calls in *. rewrite !omap_app, Hextra.
    fold (chdir_calls (gate_events w)).
    by rewrite chdir_calls_gate_events, omap_banner, app_nil_r. }
  assert (∀ t, chdir_calls (banner_events ++ gate_events w ++ t) = chdir_calls t) as Hframe0.
  { intros t. rewrite <- (app_nil_r t) at 1. by apply Hframe. }
  destruct (gate_open w) eqn:Hg.
  - destruct (first_fault w) as [[s e]|] eqn:Hff.
    + pose proof (first_fault_Some w s e Hff) as [Hs Hbefore].
      assert (chdir_calls (trace_of (run w))
              = if bool_decide (s = L61_import_serve) then []
                else [str_path (agents_dir w)])
        as Hch.
      { rewrite (run_raising w s e Hg Hff). cbn zeta.
        destruct (in_try s && isinstance e ImportError);
          [|destruct (in_try s && isinstance e Exception);
            [|destruct (isinstance e KeyboardInterrupt);
              [|destruct (isinstance e Exception)]]];
          cbn [trace_of fst]; rewrite <- ?app_assoc;
          first [ by rewrite Hframe, chdir_calls_upto by reflexivity
                | by rewrite Hframe0, chdir_calls_upto ]. }
      rewrite Hch. split.
      * intros _ Hnone. rewrite bool_decide_eq_false_2; [done|].
        intros ->. congruence.
      * intros [?|[e' He']]; [done|].
        rewrite bool_decide_eq_true_2; [done|].
        destruct (decide (s = L61_import_serve)) as [|Hne]; [done|].
        rewrite Hbefore in He'; [done|]. destruct s; cbn; (done || lia).
    + rewrite (run_calm w Hg Hff). cbn [trace_of fst]. rewrite Hframe0. split.
      * done.
      * intros [?|[e He]]; [done|].
        apply first_fault_None with (s := L61_import_serve) in Hff. congruence.
  - rewrite (run_gate_shut w Hg). cbn [trace_of fst]. split; [done|]. intros _.
    rewrite <- (app_nil_r (gate_events w)). by rewrite Hframe0.
Qed.

Lemma chdir_iff_serve_imported_witness :
  let w := example_world [] full_environ (raising L66_chdir
             (mk_exn FileNotFoundError "[Errno 2] No such file or directory" 0)) in
  chdir_calls (trace_of (run w)) = ["/srv/challenge-2/agents"].
Proof.
  intros w. destruct (chdir_iff_serve_imported w) as [H _].
  apply H; [vm_compute; reflexivity | reflexivity].
Defined.

(** ** The error-report calls of [print] *)

Lemma error_reports_app (t1 t2 : list event) :
  error_reports (t1 ++ t2) = (error_reports t1 ++ error_reports t2)%list.
Proof. unfold error_reports, printed. by rewrite omap_app, filter_app. Qed.

Lemma error_reports_print (s : string) :
  error_reports [Print s] = if is_error_report s then [s] else [].
Proof.
  unfold error_reports. change (printed [Print s]) with [s].
  destruct (is_error_report s) eqn:Hs.
  - by rewrite filter_cons_True.
  - rewrite filter_cons_False; [done|]. by rewrite Hs.
Qed.

Lemma error_reports_nil (t : list event) :
  Forall (λ ev, ∀ s, ev = Print s → is_error_report s = false) t →
  error_reports t = [].
Proof.
  induction 1 as [|ev t Hev _ IH]; [done|].
  change (ev :: t) with ([ev] ++ t)%list. rewrite error_reports_app, IH, app_nil_r.
  destruct ev as [line| | | | |]; try done.
  by rewrite error_reports_print, (Hev line).
Qed.

Ltac not_error_report :=
  let s := fresh in let H := fresh in
  intros s H; first [ discriminate H | injection H as <-; reflexivity ].

Lemma error_reports_prefix (w : World) (port : Z) (n : nat) :
  error_reports (banner_events ++ gate_events w ++ take n (launch_events port w)) = [].
Proof.
  rewrite !error_reports_app.
  assert (error_reports banner_events = []) as ->
    by (apply error_reports_nil; repeat constructor; not_error_report).
  assert (error_reports (gate_events w) = []) as ->.
  { apply error_reports_nil. unfold gate_events.
    destruct (args_no_env_check (cli w)); [constructor|].
    apply Forall_app. split; [repeat constructor; not_error_report|].
    destruct (missing_vars_of w) as [|m ms]; [repeat constructor; not_error_report|].
    unfold missing_report. constructor; [not_error_report|].
    apply Forall_app. split; [|repeat constructor; not_error_report].
    apply Forall_fmap, Forall_true. intros var. cbn. not_error_report. }
  assert (error_reports (take n (launch_events port w)) = []) as ->; [|done].
  apply error_reports_nil, Forall_take. rewrite launch_events_explicit.
  repeat constructor; not_error_report.
Qed.

(** X13. An error of the launch is reported by one call of [print]: in
    every run at most one of the three error-report calls (lines 103,
    107 and 163) is made, never the one of the launch handler and then
    the one of [main].  One is made exactly when the gate is open and
    the first external call that raises raises an exception of class
    [Exception]. *)
Theorem one_error_report (w : World) :
  (length (error_reports (trace_of (run w))) ≤ 1)%nat ∧
  (error_reports (trace_of (run w)) ≠ [] ↔
     gate_open w = true ∧
     ∃ s e, raises_first w s e ∧ isinstance e Exception = true).
Proof.
  destruct (gate_open w) eqn:Hg.
  - destruct (first_fault w) as [[s e]|] eqn:Hff.
    + pose proof (first_fault_Some w s e Hff) as Hf.
      assert (error_reports (trace_of (run w))
              = if isinstance e Exception
                then [if in_try s && isinstance e ImportError
                      then "❌ Error importing workflow: " ++ exn_str e
                      else "❌ Error launching DevUI: " ++ exn_str e]
                else []) as Hlines.
      { rewrite (run_raising w s e Hg Hff). cbn zeta. rewrite upto_take.
        destruct (in_try s && isinstance e ImportError) eqn:H1.
        { apply andb_true_iff in H1 as [_ H1].
          rewrite (isinstance_ImportError_Exception e H1). cbn [trace_of fst].
          rewrite error_reports_app, error_reports_prefix.
          change [Print ("❌ Error importing workflow: " ++ exn_str e);
                  Print (nl ++ "Make sure you're in the correct directory and all dependencies are installed.")]
            with ([Print ("❌ Error importing workflow: " ++ exn_str e)]
                  ++ [Print (nl ++ "Make sure you're in the correct directory and all dependencies are installed.")])%list.
          by rewrite error_reports_app, !error_reports_print. }
        destruct (in_try s && isinstance e Exception) eqn:H2.
        { apply andb_true_iff in H2 as [_ H2]. rewrite H2. cbn [trace_of fst].
          by rewrite error_reports_app, error_reports_prefix, error_reports_print. }
        destruct (isinstance e KeyboardInterrupt) eqn:H3.
        { apply isinstance_interrupt_iff, isinstance_KeyboardInterrupt in H3
            as (_ & -> & _).
          cbn [trace_of fst].
          by rewrite error_reports_app, error_reports_prefix, error_reports_print. }
        destruct (isinstance e Exception); cbn [trace_of fst].
        - by rewrite error_reports_app, error_reports_prefix, error_reports_print.
        - by rewrite error_reports_prefix. }
      rewrite Hlines. destruct (isinstance e Exception) eqn:Hex.
      * split; [cbn; lia|]. split; [|done]. intros _. split; [done|].
        by exists s, e.
      * split; [cbn; lia|]. split; [done|].
        intros [_ (s' & e' & Hf' & Hex')].
        destruct (raises_first_unique w s s' e e' Hf Hf') as [<- <-]. congruence.
    + rewrite (run_calm w Hg Hff). cbn [trace_of fst].
      rewrite <- (take_ge (launch_events (args_port (cli w)) w) 21)
        by (rewrite launch_events_length; lia).
      rewrite error_reports_prefix. split; [cbn; lia|]. split; [done|].
      intros [_ (s & e & Hf & _)]. apply raises_first_first_fault in Hf. congruence.
  - rewrite (run_gate_shut w Hg). cbn [trace_of fst].
    assert (error_reports (banner_events ++ gate_events w) = []) as ->
      by (rewrite <- (app_nil_r (gate_events w)); apply (error_reports_prefix w 0 0)).
    split; [cbn; lia|]. split; [done|]. by intros [? _].
Qed.

Lemma one_error_report_witness :
  let w := example_world [] full_environ (raising L68_import_executors module_not_found) in
  error_reports (trace_of (run w)) ≠ [].
Proof.
  intros w. destruct (one_error_report w) as [_ H]. apply H.
  split; [vm_compute; reflexivity|].
  exists L68_import_executors, module_not_found.
  split; [apply raising_raises_first | reflexivity].
Defined.
